(** * open_musiclm: the single-stage trainer

    A shallow embedding of [open_musiclm/trainer.py]: the dataset-field routing
    helpers ([has_duplicates], [determine_types]), the log accumulator
    ([accum_log]), the constructor of [SingleStageTrainer] and its methods
    [data_tuple_to_kwargs], [train_step] and [train]; further on, the
    generator [cycle] and the checkpoint methods [save] and [load], over a
    store of their own (the two states and the disk).

    Python objects that the trainer mutates live in an explicit state that is
    threaded through a state-and-exception monad; a Python exception leaves the
    mutations made before it in place.  Calls into PyTorch, accelerate and the
    stage wrappers are recorded as events of a trace, and the values they
    return come from an environment of oracles.

    Numbers are kept as the code has them: Python floats are binary64 values
    ([PrimFloat]), Python ints are [Z], and the step counter, a one-element
    float32 tensor, is the integer it holds together with float32 rounding.

    The two cycling iterators are taken to yield a batch whenever asked (the
    data loaders are not empty), and the stage wrapper to return a loss for
    whatever keyword arguments it is given.  More generally a call into a
    library is taken to return: what such a call may raise of its own (a data
    loader refused for an empty part, a prompt without a terminal, a folder
    that cannot be listed, removed or created, a tracker that cannot be set
    up) is not modelled.  The exceptions of the model are those the trainer
    raises itself, those of the Python operations it performs, and, for
    [load], those of [load_state_dict].  So a run that succeeds here may fail
    in a library there; what is stated of a run that succeeds, or of the
    events before a point of a run, carries over. *)

From Stdlib Require Import ZArith Lia Floats Ascii String QArith.
From stdpp Require Import gmap strings list fin_maps pretty.

Set Warnings "-inexact-float".

(** ** Python exceptions and the trainer monad *)

Inductive exn : Type :=
| BeartypeCallHintParamViolation (param : string)
| AssertionError
| ValueError
| TypeError
| KeyError (key : string)
| ZeroDivisionError
| AttributeError
| OverflowError
| RuntimeError.

Inductive result (A : Type) : Type :=
| Ok (a : A)
| Raise (e : exn).
Arguments Ok {A} a.
Arguments Raise {A} e.

(** A computation over a mutable state [S]: the state comes back also when an
    exception is raised. *)
Definition M (S A : Type) : Type := S -> result A * S.

Definition ret {S A : Type} (a : A) : M S A := fun s => (Ok a, s).

Definition bind {S A B : Type} (c : M S A) (k : A -> M S B) : M S B :=
  fun s => match c s with
           | (Ok a, s') => k a s'
           | (Raise e, s') => (Raise e, s')
           end.

Definition raise {S A : Type} (e : exn) : M S A := fun s => (Raise e, s).

Definition gets {S A : Type} (f : S -> A) : M S A := fun s => (Ok (f s), s).

Definition modify {S : Type} (f : S -> S) : M S unit := fun s => (Ok tt, f s).

#[global] Instance M_ret (S : Type) : MRet (M S) := fun A => @ret S A.
#[global] Instance M_bind (S : Type) : MBind (M S) := fun A B k c => @bind S A B c k.

(** A pure outcome inside a computation. *)
Definition lift {S A : Type} (r : result A) : M S A := fun s => (r, s).

(** [assert cond] *)
Definition py_assert {S : Type} (cond : bool) : M S unit :=
  if cond then ret tt else raise AssertionError.

(** ** Tensors and other batch elements *)

Inductive dtype : Type :=
| float16 | bfloat16 | float32 | float64 | uint8 | int32 | int64 | bool_.

#[global] Instance dtype_eq_dec : EqDecision dtype.
Proof. solve_decision. Defined.

(** What a dataset can emit at a position of a batch tuple: a tensor, of which
    the routing looks at the dtype and the number of dimensions, or any other
    Python object. *)
Inductive value : Type :=
| Tensor (dt : dtype) (shape : list nat)
| PyObject (repr : string).

Definition ndim (shape : list nat) : nat := length shape.

(** A type hint is modelled by the test [is_bearable] performs for it. *)
Definition hint : Type := value -> bool.

(** [Annotated[torch.Tensor, Is[lambda t: t.dtype == torch.float and t.ndim in {2, 3}]]];
    [torch.float] is float32. *)
Definition input_audio_hint : hint := fun el =>
  match el with
  | Tensor dt shape =>
      bool_decide (dt = float32) && bool_decide (ndim shape ∈ [2; 3])
  | PyObject _ => false
  end.

Definition DATASET_FIELD_TYPE_CONFIG : list (string * hint) :=
  [("input_audio", input_audio_hint)].

(** ** Collaborators

    The transformer, the feature extractor, the codec and the conditioner are
    opaque to the trainer; they are handles, and the feature extractor carries
    the two attributes the constructor reads. *)

Inductive TokenConditionedTransformer : Type := Transformer (id : nat).
Inductive ClapQuantized : Type := Clap (id : nat).
Inductive NeuralCodec : Type := Codec (id : nat).
Record Wav2Vec : Type := {
  target_sample_hz : Z;
  seq_len_multiple_of : option Z;
}.

(** The three stage wrappers, with the keyword arguments they are built from. *)
Inductive StageWrapper : Type :=
| SemanticStage (semantic_transformer : TokenConditionedTransformer)
    (wav2vec : Wav2Vec) (clap : ClapQuantized)
| CoarseStage (coarse_transformer : TokenConditionedTransformer)
    (neural_codec : NeuralCodec) (wav2vec : Wav2Vec)
    (clap audio_conditioner : ClapQuantized)
| FineStage (fine_transformer : TokenConditionedTransformer)
    (clap : ClapQuantized) (neural_codec : NeuralCodec).

(** The stage a wrapper belongs to. *)
Definition stage_of (w : StageWrapper) : string :=
  match w with
  | SemanticStage _ _ _ => "semantic"
  | CoarseStage _ _ _ _ _ => "coarse"
  | FineStage _ _ _ => "fine"
  end.

(** Datasets are Python objects: [oid] is the identity of the object, so that
    two attributes holding the same object can be told from two equal ones. *)
Inductive Dataset : Type :=
| CustomDataset (oid : nat) (len : nat)
| SoundDataset (oid : nat) (folder : string) (max_length : option Z)
    (target_sample_hz : Z) (seq_len_multiple_of : option Z) (len : nat)
| Subset (oid : nat) (parent : Dataset) (indices : list nat).

Definition oid_of (d : Dataset) : nat :=
  match d with
  | CustomDataset oid _ => oid
  | SoundDataset oid _ _ _ _ _ => oid
  | Subset oid _ _ => oid
  end.

(** [len(ds)] *)
Definition ds_len (d : Dataset) : nat :=
  match d with
  | CustomDataset _ len => len
  | SoundDataset _ _ _ _ _ len => len
  | Subset _ _ indices => length indices
  end.


(** ** Events *)

Inductive message : Type :=
| MsgSplit (train_len valid_len : nat)
| MsgShared (len : nat)
| MsgTrainLoss (steps : Z) (loss : float)
| MsgValidLoss (steps : Z) (loss : float)
| MsgSaving (steps : Z) (results_folder : string)
| MsgTrainingComplete.

Inductive event : Type :=
| EvAccelerator
| EvStageWrapper (w : StageWrapper)
| EvGetOptimizer (lr wd : float)
| EvSoundDataset (folder : string)
| EvRandomSplit (parent : nat) (train_size valid_size : Z) (seed : Z)
| EvPrint (msg : message)
| EvGetDataloader (ds : nat) (batch_size : Z)
| EvPrepare
| EvGlob (results_folder : string)
| EvInput
| EvRmtree (results_folder : string)
| EvMkdir (results_folder : string)
| EvInitTrackers (name : string)
| EvTransformerTrain
| EvNextTrain (pos : nat)
| EvNextValid (pos : nat)
| EvForward (kwargs : gmap string value) (loss : float)
| EvBackward (loss : float) (grad_accum_every : Z)
| EvClipGradNorm (max_grad_norm : float)
| EvOptimStep
| EvZeroGrad
| EvWrapperEval
| EvLog (key : string) (v : float) (step : Z)
| EvTorchSave (results_folder : string) (name : string)
| EvLogFn (logs : gmap string float).

(** ** The world outside the trainer *)

(** What the collaborators answer.  The batches the two cycling iterators
    yield, by position; the loss the wrapper returns at its k-th call; whether
    this is the primary process; the index lists [random_split] draws from a
    fresh generator seeded with [seed]; what is on disk; what the operator
    types at the prompt. *)
Record Env : Type := {
  is_main_process : bool;
  train_batches : nat -> list value;
  valid_batches : nat -> list value;
  forward_loss : nat -> float;
  random_split_indices :
    forall (seed : Z) (len : nat) (train_size valid_size : Z), list nat * list nat;
  sound_dataset_len : string -> nat;
  glob_nonempty : string -> bool;
  operator_answer : string;
}.

(** What changes outside the trainer object: the trace of the calls made so
    far, how many times [is_bearable] and the wrapper were called, and the next
    free object identity. *)
Record World : Type := {
  trace : list event;
  bearable_calls : nat;
  forward_calls : nat;
  next_oid : nat;
}.

Definition emit_w (e : event) (w : World) : World :=
  {| trace := trace w ++ [e];
     bearable_calls := bearable_calls w;
     forward_calls := forward_calls w;
     next_oid := next_oid w |}.

Definition tick_bearable_w (w : World) : World :=
  {| trace := trace w;
     bearable_calls := S (bearable_calls w);
     forward_calls := forward_calls w;
     next_oid := next_oid w |}.

Definition tick_forward_w (w : World) : World :=
  {| trace := trace w;
     bearable_calls := bearable_calls w;
     forward_calls := S (forward_calls w);
     next_oid := next_oid w |}.

Definition alloc_w (w : World) : World :=
  {| trace := trace w;
     bearable_calls := bearable_calls w;
     forward_calls := forward_calls w;
     next_oid := S (next_oid w) |}.

(** ** The trainer object *)

Record Trainer : Type := {
  wav2vec : option Wav2Vec;
  transformer : TokenConditionedTransformer;
  audio_conditioner : option ClapQuantized;
  train_wrapper : StageWrapper;
  steps : Z;
  num_train_steps : Z;
  batch_size : Z;
  grad_accum_every : Z;
  max_grad_norm : option float;
  ds : Dataset;
  ds_fields : option (list string);
  valid_ds : Dataset;
  dl_iter : nat;
  valid_dl_iter : nat;
  save_model_every : Z;
  save_results_every : Z;
  results_folder : string;
}.

Definition set_steps (v : Z) (t : Trainer) : Trainer :=
  {| wav2vec := wav2vec t; transformer := transformer t;
     audio_conditioner := audio_conditioner t; train_wrapper := train_wrapper t;
     steps := v;
     num_train_steps := num_train_steps t; batch_size := batch_size t;
     grad_accum_every := grad_accum_every t; max_grad_norm := max_grad_norm t;
     ds := ds t; ds_fields := ds_fields t; valid_ds := valid_ds t;
     dl_iter := dl_iter t; valid_dl_iter := valid_dl_iter t;
     save_model_every := save_model_every t;
     save_results_every := save_results_every t;
     results_folder := results_folder t |}.

Definition set_ds_fields (v : option (list string)) (t : Trainer) : Trainer :=
  {| wav2vec := wav2vec t; transformer := transformer t;
     audio_conditioner := audio_conditioner t; train_wrapper := train_wrapper t;
     steps := steps t;
     num_train_steps := num_train_steps t; batch_size := batch_size t;
     grad_accum_every := grad_accum_every t; max_grad_norm := max_grad_norm t;
     ds := ds t; ds_fields := v; valid_ds := valid_ds t;
     dl_iter := dl_iter t; valid_dl_iter := valid_dl_iter t;
     save_model_every := save_model_every t;
     save_results_every := save_results_every t;
     results_folder := results_folder t |}.

Definition set_dl_iter (v : nat) (t : Trainer) : Trainer :=
  {| wav2vec := wav2vec t; transformer := transformer t;
     audio_conditioner := audio_conditioner t; train_wrapper := train_wrapper t;
     steps := steps t;
     num_train_steps := num_train_steps t; batch_size := batch_size t;
     grad_accum_every := grad_accum_every t; max_grad_norm := max_grad_norm t;
     ds := ds t; ds_fields := ds_fields t; valid_ds := valid_ds t;
     dl_iter := v; valid_dl_iter := valid_dl_iter t;
     save_model_every := save_model_every t;
     save_results_every := save_results_every t;
     results_folder := results_folder t |}.

Definition set_valid_dl_iter (v : nat) (t : Trainer) : Trainer :=
  {| wav2vec := wav2vec t; transformer := transformer t;
     audio_conditioner := audio_conditioner t; train_wrapper := train_wrapper t;
     steps := steps t;
     num_train_steps := num_train_steps t; batch_size := batch_size t;
     grad_accum_every := grad_accum_every t; max_grad_norm := max_grad_norm t;
     ds := ds t; ds_fields := ds_fields t; valid_ds := valid_ds t;
     dl_iter := dl_iter t; valid_dl_iter := v;
     save_model_every := save_model_every t;
     save_results_every := save_results_every t;
     results_folder := results_folder t |}.

(** The state a method runs in: the trainer object and the world. *)
Record Sess : Type := { self : Trainer; world : World }.

Definition on_self (f : Trainer -> Trainer) (s : Sess) : Sess :=
  {| self := f (self s); world := world s |}.

Definition on_world (f : World -> World) (s : Sess) : Sess :=
  {| self := self s; world := f (world s) |}.

Definition emit (e : event) : M Sess unit := modify (on_world (emit_w e)).

(** ** Numbers *)

(** [float(n)] for a Python int, rounded to the nearest binary64. *)
Definition float_of_Z (z : Z) : float :=
  SF2Prim (binary_normalize prec emax z 0 false).

(** [int(x)] for a Python float: truncation towards zero; infinities and NaN
    are refused. *)
Definition int_of_float (x : float) : result Z :=
  match Prim2SF x with
  | S754_zero _ => Ok 0%Z
  | S754_infinity _ => Raise OverflowError
  | S754_nan => Raise ValueError
  | S754_finite sign m e =>
      let mag := if (0 <=? e)%Z then (Z.pos m * 2 ^ e)%Z
                 else (Z.pos m / 2 ^ (- e))%Z in
      Ok (if sign then (- mag)%Z else mag)
  end.

(** The float32 nearest to an integer, ties to even (as an integer again; the
    integers a float32 counter meets are far below its overflow threshold).
    Integers up to [2^24] in magnitude are float32 values themselves. *)
Definition f32_round (z : Z) : Z :=
  let a := Z.abs z in
  if (a <? 2 ^ 24)%Z then z
  else
    let ulp := (2 ^ (Z.log2 a - 23))%Z in
    let q := (a / ulp)%Z in
    let r := (a mod ulp)%Z in
    let half := (ulp / 2)%Z in
    let q' := if (r <? half)%Z then q
              else if (half <? r)%Z then (q + 1)%Z
              else if Z.even q then q else (q + 1)%Z in
    (Z.sgn z * (q' * ulp))%Z.

(** The integer a finite float32 of the Standard Library's IEEE 754 model
    stands for, to compare [f32_round] with that model. *)
Definition Z_of_SF (x : spec_float) : option Z :=
  match x with
  | S754_zero _ => Some 0%Z
  | S754_finite sign m e =>
      if (0 <=? e)%Z
      then Some ((if sign then -1 else 1) * (Z.pos m * 2 ^ e))%Z
      else if (Z.pos m mod 2 ^ (- e) =? 0)%Z
           then Some ((if sign then -1 else 1) * (Z.pos m / 2 ^ (- e)))%Z
           else None
  | _ => None
  end.

(** [a % b] on Python ints: the sign of the result follows the divisor, as
    [Z.modulo] does. *)
Definition py_mod {S : Type} (a b : Z) : M S Z :=
  if (b =? 0)%Z then raise ZeroDivisionError else ret (a mod b)%Z.

(** ** Log accumulation *)

(** [accum_log(log, new_logs)]; [new_logs] is given by its items. *)
Definition accum_log (log : gmap string float) (new_logs : list (string * float))
  : gmap string float :=
  foldl (fun log item =>
           let old_value := default 0%float (log !! item.1) in
           <[item.1 := (old_value + item.2)%float]> log)
        log new_logs.

(** ** Routing of dataset fields *)

(** [counts] of [has_duplicates] after the loop over [tup]. *)
Definition count_elements (tup : list string) : gmap string nat :=
  foldl (fun counts el =>
           let counts := match counts !! el with
                         | None => <[el := 0]> counts
                         | Some _ => counts
                         end in
           <[el := default 0 (counts !! el) + 1]> counts)
        ∅ tup.

(** [any(filter(lambda count: count > 1, counts.values()))] *)
Definition has_duplicates (tup : list string) : bool :=
  existsb (fun count : nat => negb (count =? 0))
          (filter (fun count : nat => count > 1)
                  (snd <$> map_to_list (count_elements tup))).

(** [dict(zip(names, data))]: [zip] stops at the shorter of the two and a
    repeated key keeps its last value. *)
Definition dict_of_zip (names : list string) (data : list value) : gmap string value :=
  foldl (fun d item => <[item.1 := item.2]> d) ∅ (zip names data).

(** [is_bearable(el, data_type)], counted. *)
Definition is_bearable (el : value) (data_type : hint) : M Sess bool :=
  modify (on_world tick_bearable_w);;
  ret (data_type el).

(** The inner loop of [determine_types]: the name of the first entry of
    [config] whose hint [el] satisfies, if there is one. *)
Fixpoint first_bearable (el : value) (config : list (string * hint))
  : M Sess (option string) :=
  match config with
  | [] => ret None
  | (name, data_type) :: config' =>
      b ← is_bearable el data_type;
      if b : bool then ret (Some name) else first_bearable el config'
  end.

Fixpoint determine_types (data : list value) (config : list (string * hint))
  : M Sess (list string) :=
  match data with
  | [] => ret []
  | el :: data' =>
      found ← first_bearable el config;
      match found with
      | Some name =>
          output ← determine_types data' config;
          ret (name :: output)
      | None => raise TypeError
      end
  end.

Definition data_tuple_to_kwargs (data : list value) : M Sess (gmap string value) :=
  cached ← gets (ds_fields ∘ self);
  match cached with
  | Some _ => ret tt
  | None =>
      fields ← determine_types data DATASET_FIELD_TYPE_CONFIG;
      modify (on_self (set_ds_fields (Some fields)));;
      py_assert (negb (has_duplicates fields))
  end;;
  fields ← gets (ds_fields ∘ self);
  ret (dict_of_zip (default [] fields) data).

Section Methods.
Context (E : Env).

(** [next(self.dl_iter)] and [next(self.valid_dl_iter)] *)
Definition next_train : M Sess (list value) :=
  pos ← gets (dl_iter ∘ self);
  emit (EvNextTrain pos);;
  modify (on_self (set_dl_iter (S pos)));;
  ret (train_batches E pos).

Definition next_valid : M Sess (list value) :=
  pos ← gets (valid_dl_iter ∘ self);
  emit (EvNextValid pos);;
  modify (on_self (set_valid_dl_iter (S pos)));;
  ret (valid_batches E pos).

(** The call of [self.train_wrapper] with the keyword arguments [data_kwargs]
    and [return_loss=True]; the result is the value [loss.item()] reads. *)
Definition forward (data_kwargs : gmap string value) : M Sess float :=
  k ← gets (forward_calls ∘ world);
  modify (on_world tick_forward_w);;
  emit (EvForward data_kwargs (forward_loss E k));;
  ret (forward_loss E k).

(** The body of [for _ in range(self.grad_accum_every)], [n] times. *)
Fixpoint accum_loop (n : nat) (logs : gmap string float) : M Sess (gmap string float) :=
  match n with
  | O => ret logs
  | S n' =>
      batch ← next_train;
      data_kwargs ← data_tuple_to_kwargs batch;
      loss ← forward data_kwargs;
      every ← gets (grad_accum_every ∘ self);
      emit (EvBackward loss every);;
      accum_loop n' (accum_log logs [("loss", (loss / float_of_Z every)%float)])
  end.

(** [self.is_main and not (steps % every)] *)
Definition due (steps every : Z) : M Sess bool :=
  if is_main_process E
  then r ← py_mod steps every; ret (r =? 0)%Z
  else ret false.

(** [logs['loss']] *)
Definition getitem (logs : gmap string float) (key : string) : M Sess float :=
  match logs !! key with
  | Some v => ret v
  | None => raise (KeyError key)
  end.

(** [f'semantic.transformer.{steps}.pt'] *)
Definition model_name (steps : Z) : string :=
  "semantic.transformer." +:+ pretty steps +:+ ".pt".

(** [# sample results every so often] *)
Definition sample_results (steps_ : Z) : M Sess unit :=
  every ← gets (save_results_every ∘ self);
  sample ← due steps_ every;
  if sample : bool then
    batch ← next_valid;
    data_kwargs ← data_tuple_to_kwargs batch;
    emit EvWrapperEval;;
    valid_loss ← forward data_kwargs;
    emit (EvPrint (MsgValidLoss steps_ valid_loss));;
    emit (EvLog "valid_loss" valid_loss steps_)
  else ret tt.

(** [# save model every so often] *)
Definition save_model (steps_ : Z) : M Sess unit :=
  every ← gets (save_model_every ∘ self);
  save ← due steps_ every;
  if save : bool then
    folder ← gets (results_folder ∘ self);
    emit (EvTorchSave folder (model_name steps_));;
    emit (EvPrint (MsgSaving steps_ folder))
  else ret tt.

Definition train_step : M Sess (gmap string float) :=
  steps_ ← gets (steps ∘ self);
  emit EvTransformerTrain;;
  every ← gets (grad_accum_every ∘ self);
  logs ← accum_loop (Z.to_nat every) ∅;
  norm ← gets (max_grad_norm ∘ self);
  match norm with
  | Some max_norm => emit (EvClipGradNorm max_norm)
  | None => ret tt
  end;;
  emit EvOptimStep;;
  emit EvZeroGrad;;
  loss ← getitem logs "loss";
  emit (EvPrint (MsgTrainLoss steps_ loss));;
  emit (EvLog "train_loss" loss steps_);;
  sample_results steps_;;
  save_model steps_;;
  modify (on_self (fun t => set_steps (f32_round (steps t + 1)) t));;
  ret logs.

(** [train]: the [while] loop, with [fuel] bounding the number of iterations;
    [None] when the fuel runs out before the loop ends.  The test
    [self.steps < self.num_train_steps] compares a float32 tensor with a
    Python number, which torch brings to float32 first.  The callback
    [log_fn] is recorded as an event. *)
Fixpoint train (fuel : nat) (s : Sess) : option (result unit * Sess) :=
  if (steps (self s) <? f32_round (num_train_steps (self s)))%Z then
    match fuel with
    | O => None
    | S fuel' =>
        match train_step s with
        | (Ok logs, s') => train fuel' (emit (EvLogFn logs) s').2
        | (Raise e, s') => Some (Raise e, s')
        end
    end
  else Some (emit (EvPrint MsgTrainingComplete) s).

End Methods.

(** ** The constructor *)

(** The arguments of [SingleStageTrainer(...)].  The annotations of
    [__init__] are the types of the fields; the [Literal] annotation of
    [stage] refines [str] and is checked when the constructor is called. *)
Module Args.
Record t : Type := {
  transformer : TokenConditionedTransformer;
  stage : string;
  num_train_steps : Z;
  batch_size : Z;
  dataset : option Dataset;
  wav2vec : option Wav2Vec;
  neural_codec : option NeuralCodec;
  audio_conditioner : option ClapQuantized;
  data_max_length : option Z;
  folder : option string;
  lr : float;
  grad_accum_every : Z;
  wd : float;
  max_grad_norm : option float;
  valid_frac : float;
  random_split_seed : Z;
  save_results_every : Z;
  save_model_every : Z;
  results_folder : string;
}.
End Args.

(** [Literal['semantic', 'coarse', 'fine']] *)
Definition stage_literal : list string := ["semantic"; "coarse"; "fine"].

(** [str.lower] on ASCII letters. *)
Definition ascii_lower (c : ascii) : ascii :=
  let n := nat_of_ascii c in
  if (65 <=? n) && (n <=? 90) then ascii_of_nat (n + 32) else c.

Fixpoint lower (s : string) : string :=
  match s with
  | EmptyString => EmptyString
  | String c s' => String (ascii_lower c) (lower s')
  end.

Definition emit0 (e : event) : M World unit := modify (emit_w e).

(** The identity of a newly created object. *)
Definition fresh_oid : M World nat := fun w => (Ok (next_oid w), alloc_w w).

Section Constructor.
Context (E : Env).

(** [yes_or_no(question)] *)
Definition yes_or_no : M World bool :=
  emit0 EvInput;;
  ret (bool_decide (lower (operator_answer E) ∈ ["yes"; "y"])).

(** [torch.utils.data.random_split(dataset, [train_size, valid_size],
    generator=torch.Generator().manual_seed(seed))]: the lengths have to add
    up to the length of the dataset; the two subsets are new objects over the
    index lists drawn from the seeded generator. *)
Definition random_split (dataset : Dataset) (train_size valid_size seed : Z)
  : M World (Dataset * Dataset) :=
  emit0 (EvRandomSplit (oid_of dataset) train_size valid_size seed);;
  if bool_decide ((train_size + valid_size)%Z = Z.of_nat (ds_len dataset)) then
    let indices :=
      random_split_indices E seed (ds_len dataset) train_size valid_size in
    train_oid ← fresh_oid;
    valid_oid ← fresh_oid;
    ret (Subset train_oid dataset indices.1, Subset valid_oid dataset indices.2)
  else raise ValueError.

(** The stage wrapper: the [if stage == ...] chain with its assertions. *)
Definition build_wrapper (a : Args.t) : M World StageWrapper :=
  if String.eqb (Args.stage a) "semantic" then
    match Args.audio_conditioner a, Args.wav2vec a with
    | Some clap, Some wv => ret (SemanticStage (Args.transformer a) wv clap)
    | _, _ => raise AssertionError
    end
  else if String.eqb (Args.stage a) "coarse" then
    match Args.wav2vec a, Args.audio_conditioner a, Args.neural_codec a with
    | Some wv, Some clap, Some codec =>
        ret (CoarseStage (Args.transformer a) codec wv clap clap)
    | _, _, _ => raise AssertionError
    end
  else if String.eqb (Args.stage a) "fine" then
    match Args.audio_conditioner a, Args.neural_codec a with
    | Some clap, Some codec => ret (FineStage (Args.transformer a) clap codec)
    | _, _ => raise AssertionError
    end
  else raise ValueError.

(** [# create dataset]: the dataset passed in, or a [SoundDataset] over
    [folder] with the sample rate and alignment the feature extractor asks
    for. *)
Definition create_dataset (a : Args.t) : M World Dataset :=
  match Args.dataset a with
  | Some d => ret d
  | None =>
      match Args.folder a with
      | None => raise AssertionError
      | Some folder =>
          match Args.wav2vec a with
          | None => raise AttributeError
          | Some wv =>
              oid ← fresh_oid;
              emit0 (EvSoundDataset folder);;
              ret (SoundDataset oid folder (Args.data_max_length a)
                     (target_sample_hz wv) (seq_len_multiple_of wv)
                     (sound_dataset_len E folder))
          end
      end
  end.

(** [# split for validation]: the pair [(self.ds, self.valid_ds)]. *)
Definition split_for_validation (a : Args.t) (dataset : Dataset)
  : M World (Dataset * Dataset) :=
  if (0 <? Args.valid_frac a)%float then
    train_size ← lift (int_of_float
      ((1 - Args.valid_frac a) * float_of_Z (Z.of_nat (ds_len dataset)))%float);
    let valid_size := (Z.of_nat (ds_len dataset) - train_size)%Z in
    parts ← random_split dataset train_size valid_size (Args.random_split_seed a);
    emit0 (EvPrint (MsgSplit (ds_len parts.1) (ds_len parts.2)));;
    ret parts
  else
    emit0 (EvPrint (MsgShared (ds_len dataset)));;
    ret (dataset, dataset).

(** The results folder: cleared when it holds files and the operator agrees,
    then created. *)
Definition prepare_results_folder (a : Args.t) : M World unit :=
  emit0 (EvGlob (Args.results_folder a));;
  (if glob_nonempty E (Args.results_folder a) then
     clear ← yes_or_no;
     if clear : bool then emit0 (EvRmtree (Args.results_folder a)) else ret tt
   else ret tt);;
  emit0 (EvMkdir (Args.results_folder a)).

(** The body of [__init__]. *)
Definition __init__ (a : Args.t) : M World Trainer :=
  emit0 EvAccelerator;;
  wrapper ← build_wrapper a;
  emit0 (EvStageWrapper wrapper);;
  emit0 (EvGetOptimizer (Args.lr a) (Args.wd a));;
  dataset ← create_dataset a;
  split ← split_for_validation a dataset;
  emit0 (EvGetDataloader (oid_of split.1) (Args.batch_size a));;
  emit0 (EvGetDataloader (oid_of split.2) (Args.batch_size a));;
  emit0 EvPrepare;;
  prepare_results_folder a;;
  emit0 (EvInitTrackers "semantic");;
  ret {| wav2vec := Args.wav2vec a;
         transformer := Args.transformer a;
         audio_conditioner := Args.audio_conditioner a;
         train_wrapper := wrapper;
         steps := 0;
         num_train_steps := Args.num_train_steps a;
         batch_size := Args.batch_size a;
         grad_accum_every := Args.grad_accum_every a;
         max_grad_norm := Args.max_grad_norm a;
         ds := split.1;
         ds_fields := None;
         valid_ds := split.2;
         dl_iter := 0;
         valid_dl_iter := 0;
         save_model_every := Args.save_model_every a;
         save_results_every := Args.save_results_every a;
         results_folder := Args.results_folder a |}.

(** [SingleStageTrainer(...)]: the class is decorated with [@beartype], which
    checks the arguments against the annotations before the body runs. *)
Definition SingleStageTrainer (a : Args.t) : M World Trainer :=
  if bool_decide (Args.stage a ∈ stage_literal) then __init__ a
  else raise (BeartypeCallHintParamViolation "stage").

End Constructor.

(** ** Reading a trace *)

(** The entries into [train_step]: each call starts by putting the transformer
    in training mode, and nothing else does. *)
Definition train_step_calls (evs : list event) : nat :=
  length (omap (fun e => match e with EvTransformerTrain => Some tt | _ => None end) evs).

(** The model snapshots written, as (folder, file name), in order. *)
Definition checkpoints (evs : list event) : list (string * string) :=
  omap (fun e => match e with
                 | EvTorchSave folder name => Some (folder, name)
                 | _ => None
                 end) evs.

(** The steps at which a value was sent to the tracker under [key]. *)
Definition logged_steps (key : string) (evs : list event) : list Z :=
  omap (fun e => match e with
                 | EvLog k _ step => if String.eqb k key then Some step else None
                 | _ => None
                 end) evs.

(** The values sent to the tracker under [key]. *)
Definition logged_values (key : string) (evs : list event) : list float :=
  omap (fun e => match e with
                 | EvLog k v _ => if String.eqb k key then Some v else None
                 | _ => None
                 end) evs.

(** The events that construct a dataset, split it or load data from it. *)
Definition data_event (e : event) : bool :=
  match e with
  | EvSoundDataset _ | EvRandomSplit _ _ _ _ | EvGetDataloader _ _
  | EvNextTrain _ | EvNextValid _ => true
  | _ => false
  end.

(** ** What the spec says of the accumulated loss

    The losses of the micro-batches of a step that starts in [s], and the
    value the spec gives for the logged loss: their sum divided by
    [grad_accum_every]. *)
Definition micro_batch_losses (E : Env) (s : Sess) : list float :=
  forward_loss E <$> seq (forward_calls (world s)) (Z.to_nat (grad_accum_every (self s))).

Definition sum_then_divide (losses : list float) (every : Z) : float :=
  (foldl PrimFloat.add 0 losses / float_of_Z every)%float.

(** What [train_step] accumulates: each loss divided first, then added. *)
Definition divide_then_sum (losses : list float) (every : Z) : float :=
  foldl (fun acc loss => (acc + loss / float_of_Z every)%float) 0%float losses.

(** The same two computations in exact arithmetic. *)
Definition sum_then_divide_exact (losses : list Q) (every : Q) : Q :=
  (foldl Qplus 0 losses / every)%Q.

Definition divide_then_sum_exact (losses : list Q) (every : Q) : Q :=
  foldl (fun acc loss => acc + loss / every)%Q 0%Q losses.

(** ** Sample inputs *)

Definition audio_batch : list value := [Tensor float32 [4; 320]].

(** A primary process whose dataset emits one audio tensor per batch and whose
    wrapper always returns the loss [1.0]. *)
Definition unit_loss_env : Env :=
  {| is_main_process := true;
     train_batches := fun _ => audio_batch;
     valid_batches := fun _ => audio_batch;
     forward_loss := fun _ => 1%float;
     random_split_indices := fun _ _ train_size valid_size =>
       (seq 0 (Z.to_nat train_size), seq (Z.to_nat train_size) (Z.to_nat valid_size));
     sound_dataset_len := fun _ => 100;
     glob_nonempty := fun _ => false;
     operator_answer := "n" |}.

Definition empty_world : World :=
  {| trace := []; bearable_calls := 0; forward_calls := 0; next_oid := 1 |}.

(** A call of the constructor with every collaborator passed in and the
    keyword defaults of [__init__] elsewhere, but for the four the examples
    vary. *)
Definition sample_args (stage : string)
    (num_train_steps grad_accum_every save_results_every save_model_every : Z)
    (valid_frac : float) : Args.t :=
  {| Args.transformer := Transformer 0;
     Args.stage := stage;
     Args.num_train_steps := num_train_steps;
     Args.batch_size := 4;
     Args.dataset := Some (CustomDataset 0 100);
     Args.wav2vec := Some {| target_sample_hz := 16000; seq_len_multiple_of := Some 320%Z |};
     Args.neural_codec := Some (Codec 0);
     Args.audio_conditioner := Some (Clap 0);
     Args.data_max_length := None;
     Args.folder := None;
     Args.lr := 3e-4;
     Args.grad_accum_every := grad_accum_every;
     Args.wd := 0;
     Args.max_grad_norm := Some 0.5%float;
     Args.valid_frac := valid_frac;
     Args.random_split_seed := 42;
     Args.save_results_every := save_results_every;
     Args.save_model_every := save_model_every;
     Args.results_folder := "./results" |}.

(** The session the constructor leaves behind in [unit_loss_env], if it
    succeeds. *)
Definition sample_session (a : Args.t) : option Sess :=
  match SingleStageTrainer unit_loss_env a empty_world with
  | (Ok t, w) => Some {| self := t; world := w |}
  | (Raise _, _) => None
  end.



(** A call for the semantic stage with no audio conditioner, over a folder. *)
Definition unconditioned_args : Args.t :=
  {| Args.transformer := Transformer 0;
     Args.stage := "semantic";
     Args.num_train_steps := 5;
     Args.batch_size := 4;
     Args.dataset := None;
     Args.wav2vec := Some {| target_sample_hz := 16000; seq_len_multiple_of := Some 320%Z |};
     Args.neural_codec := None;
     Args.audio_conditioner := None;
     Args.data_max_length := None;
     Args.folder := Some "./data";
     Args.lr := 3e-4;
     Args.grad_accum_every := 1;
     Args.wd := 0;
     Args.max_grad_norm := Some 0.5%float;
     Args.valid_frac := 0.05;
     Args.random_split_seed := 42;
     Args.save_results_every := 100;
     Args.save_model_every := 1000;
     Args.results_folder := "./results" |}.

(** The sample session after a first batch has been routed. *)
Definition routed_session : option Sess :=
  match sample_session (sample_args "semantic" 5 1 100 1000 0.05) with
  | Some s => Some (data_tuple_to_kwargs audio_batch s).2
  | None => None
  end.


(** ** Frames

    What the parts of a step leave alone.  [config] forgets the three
    attributes that the routing and the iterators update; [observe] keeps the
    events the properties below read: the entries into [train_step], the
    values sent to the tracker and the snapshots written. *)

Definition config (t : Trainer) : Trainer :=
  set_ds_fields None (set_dl_iter 0 (set_valid_dl_iter 0 t)).

Definition observable (e : event) : bool :=
  match e with
  | EvTransformerTrain | EvLog _ _ _ | EvTorchSave _ _ => true
  | _ => false
  end.

Definition observe (evs : list event) : list event := List.filter observable evs.

(** A part of a step that touches neither the configuration nor the
    observable events. *)
Definition frame (s s' : Sess) : Prop :=
  config (self s') = config (self s) /\
  observe (trace (world s')) = observe (trace (world s)) /\
  next_oid (world s') = next_oid (world s).

(** The observable events of one successful step that starts in [s]. *)
Definition step_observations (E : Env) (s : Sess) : list event :=
  let t := self s in
  let every := Z.to_nat (grad_accum_every t) in
  [EvTransformerTrain;
   EvLog "train_loss"
     (foldl (fun acc loss => (acc + loss / float_of_Z (grad_accum_every t))%float)
        0%float (forward_loss E <$> seq (forward_calls (world s)) every))
     (steps t)] ++
  (if is_main_process E && (steps t mod save_results_every t =? 0)%Z
   then [EvLog "valid_loss" (forward_loss E (forward_calls (world s) + every)) (steps t)]
   else []) ++
  (if is_main_process E && (steps t mod save_model_every t =? 0)%Z
   then [EvTorchSave (results_folder t) (model_name (steps t))]
   else []).

(** The log after the accumulation loop has seen [losses]. *)
Definition accum_losses (every : Z) (logs : gmap string float) (losses : list float)
  : gmap string float :=
  foldl (fun lg loss => accum_log lg [("loss", (loss / float_of_Z every)%float)])
        logs losses.

(** Among the [count] steps from [first] on, those that are multiples of
    [every]. *)
Definition due_steps (every first : Z) (count : nat) : list Z :=
  List.filter (fun i => (i mod every =? 0)%Z)
              ((fun i => (first + Z.of_nat i)%Z) <$> seq 0 count).

(** A batch the fixed table can route: at most one element, and each one an
    audio tensor. *)
Definition classifiable (el : value) : Prop := input_audio_hint el = true.

Definition routable (data : list value) : Prop :=
  length data <= 1 /\ Forall classifiable data.

(** [n] more calls of [is_bearable]. *)
Definition bearable_more (n : nat) (s : Sess) : Sess :=
  on_world (fun w => {| trace := trace w;
                        bearable_calls := n + bearable_calls w;
                        forward_calls := forward_calls w;
                        next_oid := next_oid w |}) s.

(** ** Proof automation *)

(** Unfolds the operations of the monad, up to the first call it does not
    know. *)
Ltac run :=
  cbv beta iota zeta delta
    [mbind M_bind bind mret M_ret ret gets modify raise compose emit emit0 py_assert];
  cbn [fst snd].

(** The same, through the iterators, the wrapper and the periodic tests. *)
Ltac run_step :=
  cbv beta iota zeta delta
    [mbind M_bind bind mret M_ret ret gets modify raise compose emit emit0 py_assert
     next_train next_valid forward due py_mod getitem];
  cbn [fst snd].

Ltac run_step_in H :=
  cbv beta iota zeta delta
    [mbind M_bind bind mret M_ret ret gets modify raise compose emit emit0 py_assert
     next_train next_valid forward due py_mod getitem] in H;
  cbn [fst snd] in H.

(** ** More readings of the routing *)

(** How often [x] occurs in [tup]. *)
Definition occurrences (x : string) (tup : list string) : nat :=
  length (filter (fun y => y = x) tup).

(** [name] is the name [determine_types] gives [el]: the first entry of
    [config], in its order, whose hint accepts [el]. *)
Definition first_match (config : list (string * hint)) (el : value) (name : string)
  : Prop :=
  exists before data_type after,
    config = before ++ (name, data_type) :: after /\
    data_type el = true /\
    Forall (fun entry : string * hint => entry.2 el = false) before.

(** A table with a second entry, for token tensors, after the one for audio. *)
Definition two_entry_config : list (string * hint) :=
  [("input_audio", input_audio_hint);
   ("tokens", fun el => match el with
                        | Tensor dt _ => bool_decide (dt = int64)
                        | PyObject _ => false
                        end)].

(** ** More readings of a trace *)

(** The calls that move the weights, in their order: the backward passes, the
    clipping of the gradients, the optimizer step and the clearing of the
    gradients. *)
Definition optimizer_event (e : event) : bool :=
  match e with
  | EvBackward _ _ | EvClipGradNorm _ | EvOptimStep | EvZeroGrad => true
  | _ => false
  end.

Definition optimizer_events (evs : list event) : list event :=
  List.filter optimizer_event evs.

(** The calls of the callback [log_fn]. *)
Definition log_fn_calls (evs : list event) : list (gmap string float) :=
  omap (fun e => match e with EvLogFn logs => Some logs | _ => None end) evs.

(** ** More sample inputs *)

(** A process that is not the primary one, whose validation batches could not
    be routed. *)
Definition secondary_env : Env :=
  {| is_main_process := false;
     train_batches := fun _ => audio_batch;
     valid_batches := fun _ => [PyObject "caption"; PyObject "caption"];
     forward_loss := fun k => float_of_Z (Z.of_nat k);
     random_split_indices := fun _ _ train_size valid_size =>
       (seq 0 (Z.to_nat train_size), seq (Z.to_nat train_size) (Z.to_nat valid_size));
     sound_dataset_len := fun _ => 100;
     glob_nonempty := fun _ => true;
     operator_answer := "YES" |}.

(** A primary process whose dataset emits a caption next to the audio. *)
Definition captioned_env : Env :=
  {| is_main_process := true;
     train_batches := fun _ => [Tensor float32 [4; 320]; PyObject "caption"];
     valid_batches := fun _ => [Tensor float32 [4; 320]; PyObject "caption"];
     forward_loss := fun _ => 1%float;
     random_split_indices := fun _ _ train_size valid_size =>
       (seq 0 (Z.to_nat train_size), seq (Z.to_nat train_size) (Z.to_nat valid_size));
     sound_dataset_len := fun _ => 100;
     glob_nonempty := fun _ => true;
     operator_answer := "no" |}.

(** The session the constructor leaves behind in [E], if it succeeds. *)
Definition session_in (E : Env) (a : Args.t) : option Sess :=
  match SingleStageTrainer E a empty_world with
  | (Ok t, w) => Some {| self := t; world := w |}
  | (Raise _, _) => None
  end.

(** What is done to the results folder, in order: listing it, asking the
    operator, removing it, creating it. *)
Definition folder_event (e : event) : bool :=
  match e with
  | EvGlob _ | EvInput | EvRmtree _ | EvMkdir _ => true
  | _ => false
  end.

Definition folder_events (evs : list event) : list event := List.filter folder_event evs.

(** A call for the fine stage over a folder, with no feature extractor. *)
Definition fine_folder_args : Args.t :=
  {| Args.transformer := Transformer 0;
     Args.stage := "fine";
     Args.num_train_steps := 5;
     Args.batch_size := 4;
     Args.dataset := None;
     Args.wav2vec := None;
     Args.neural_codec := Some (Codec 0);
     Args.audio_conditioner := Some (Clap 0);
     Args.data_max_length := None;
     Args.folder := Some "./data";
     Args.lr := 3e-4;
     Args.grad_accum_every := 1;
     Args.wd := 0;
     Args.max_grad_norm := Some 0.5%float;
     Args.valid_frac := 0.05;
     Args.random_split_seed := 42;
     Args.save_results_every := 100;
     Args.save_model_every := 1000;
     Args.results_folder := "./results" |}.

(** A call with every module passed in, but neither a dataset nor a folder. *)
Definition no_data_args : Args.t :=
  {| Args.transformer := Transformer 0;
     Args.stage := "coarse";
     Args.num_train_steps := 5;
     Args.batch_size := 4;
     Args.dataset := None;
     Args.wav2vec := Some {| target_sample_hz := 16000; seq_len_multiple_of := None |};
     Args.neural_codec := Some (Codec 0);
     Args.audio_conditioner := Some (Clap 0);
     Args.data_max_length := None;
     Args.folder := None;
     Args.lr := 3e-4;
     Args.grad_accum_every := 1;
     Args.wd := 0;
     Args.max_grad_norm := Some 0.5%float;
     Args.valid_frac := 0.05;
     Args.random_split_seed := 42;
     Args.save_results_every := 100;
     Args.save_model_every := 1000;
     Args.results_folder := "./results" |}.

(** A call for the fine stage with no codec. *)
Definition fine_codecless : Args.t :=
  {| Args.transformer := Transformer 0;
     Args.stage := "fine";
     Args.num_train_steps := 5;
     Args.batch_size := 4;
     Args.dataset := Some (CustomDataset 0 100);
     Args.wav2vec := None;
     Args.neural_codec := None;
     Args.audio_conditioner := Some (Clap 0);
     Args.data_max_length := None;
     Args.folder := None;
     Args.lr := 3e-4;
     Args.grad_accum_every := 1;
     Args.wd := 0;
     Args.max_grad_norm := Some 0.5%float;
     Args.valid_frac := 0.05;
     Args.random_split_seed := 42;
     Args.save_results_every := 100;
     Args.save_model_every := 1000;
     Args.results_folder := "./results" |}.

(** What building the dataset does when it succeeds: nothing for a dataset
    passed in, one [SoundDataset] otherwise. *)
Definition dataset_effects (a : Args.t) : list event :=
  match Args.dataset a, Args.folder a with
  | None, Some folder => [EvSoundDataset folder]
  | _, _ => []
  end.

(** What splitting [dataset] into [parts] does. *)
Definition split_effects (a : Args.t) (dataset : Dataset) (parts : Dataset * Dataset)
  : list event :=
  if (0 <? Args.valid_frac a)%float then
    match int_of_float
            ((1 - Args.valid_frac a) * float_of_Z (Z.of_nat (ds_len dataset)))%float with
    | Ok train_size =>
        [EvRandomSplit (oid_of dataset) train_size
           (Z.of_nat (ds_len dataset) - train_size) (Args.random_split_seed a);
         EvPrint (MsgSplit (ds_len parts.1) (ds_len parts.2))]
    | Raise _ => []
    end
  else [EvPrint (MsgShared (ds_len dataset))].

(** What preparing the results folder does. *)
Definition folder_effects (E : Env) (a : Args.t) : list event :=
  EvGlob (Args.results_folder a)
  :: (if glob_nonempty E (Args.results_folder a) then
        EvInput
        :: (if bool_decide (lower (operator_answer E) ∈ ["yes"; "y"])
            then [EvRmtree (Args.results_folder a)] else [])
      else [])
  ++ [EvMkdir (Args.results_folder a)].

(** The operator shouts. *)
Definition shouting_env : Env :=
  {| is_main_process := true;
     train_batches := fun _ => audio_batch;
     valid_batches := fun _ => audio_batch;
     forward_loss := fun _ => 1%float;
     random_split_indices := fun _ _ train_size valid_size =>
       (seq 0 (Z.to_nat train_size), seq (Z.to_nat train_size) (Z.to_nat valid_size));
     sound_dataset_len := fun _ => 100;
     glob_nonempty := fun _ => true;
     operator_answer := "Yes" |}.

(** ** The cycling iterator

    [cycle(dl)] is a generator: [while True: for data in dl: yield data].
    Every [for] asks [dl] for a new iterator; [dl k] is the list of items the
    [k]-th of them yields (a shuffling loader gives a different order each
    time).  The state of the generator is the number of passes started and
    what is left of the current one. *)
Record cycle_state (A : Type) : Type := {
  passes : nat;
  rest : list A;
}.
Arguments passes {A} _.
Arguments rest {A} _.

(** The generator before its first [next]. *)
Definition cycle {A : Type} : cycle_state A := {| passes := 0; rest := [] |}.

(** [next(it)]: the next item and the state after it.  A pass that is used up
    is followed by a new one; [fuel] bounds the passes started in a row
    without an item, and [None] says that none was found within it (the
    generator itself goes on looking: it never stops). *)
Fixpoint cycle_next {A : Type} (fuel : nat) (dl : nat -> list A) (st : cycle_state A)
  : option (A * cycle_state A) :=
  match rest st with
  | data :: rest' => Some (data, {| passes := passes st; rest := rest' |})
  | [] =>
      match fuel with
      | O => None
      | S fuel' => cycle_next fuel' dl {| passes := S (passes st); rest := dl (passes st) |}
      end
  end.

(** [n] times [next(it)]. *)
Fixpoint cycle_take {A : Type} (fuel : nat) (dl : nat -> list A) (n : nat)
    (st : cycle_state A) : option (list A * cycle_state A) :=
  match n with
  | O => Some ([], st)
  | S n' =>
      match cycle_next fuel dl st with
      | None => None
      | Some (data, st') =>
          match cycle_take fuel dl n' st' with
          | None => None
          | Some (items, st'') => Some (data :: items, st'')
          end
      end
  end.

(** ** Checkpoints

    [save] and [load] touch the transformer, the optimizer and the disk, and
    nothing else of the trainer.  A state dict is a mapping from names to
    entries (the integers stand for the tensors); a file holds the dict that
    [torch.save] was given, read back by [torch.load]. *)
Definition state_dict : Type := gmap string Z.

(** The values of a saved dict: a tensor, in a bare state dict, or a whole
    state dict, in a package. *)
Inductive obj : Type :=
| ObjTensor (t : Z)
| ObjStateDict (sd : state_dict).

(** [load_state_dict] of the transformer and of the optimizer belong to
    PyTorch: given the state held and the argument, each answers with an
    outcome and the state held afterwards. *)
Record Library : Type := {
  load_module_state : state_dict -> obj -> result unit * state_dict;
  load_optim_state : state_dict -> obj -> result unit * state_dict;
}.

Record Store : Type := {
  transformer_state : state_dict;
  optim_state : state_dict;
  disk : gmap string (gmap string obj);
}.

Definition set_transformer_state (sd : state_dict) (s : Store) : Store :=
  {| transformer_state := sd; optim_state := optim_state s; disk := disk s |}.

Definition set_optim_state (sd : state_dict) (s : Store) : Store :=
  {| transformer_state := transformer_state s; optim_state := sd; disk := disk s |}.

(** [torch.save(obj, path)] *)
Definition torch_save (pkg : gmap string obj) (path : string) : M Store unit :=
  modify (fun s => {| transformer_state := transformer_state s;
                      optim_state := optim_state s;
                      disk := <[path := pkg]> (disk s) |}).

(** [pkg[key]] *)
Definition pkg_getitem (pkg : gmap string obj) (key : string) : M Store obj :=
  match pkg !! key with
  | Some v => ret v
  | None => raise (KeyError key)
  end.

(** [SingleStageTrainer.save] *)
Definition save (path : string) : M Store unit :=
  model ← gets transformer_state;
  optim ← gets optim_state;
  let pkg : gmap string obj :=
    <["optim" := ObjStateDict optim]> (<["model" := ObjStateDict model]> ∅) in
  torch_save pkg path.

(** The periodic snapshot of [train_step]:
    [torch.save(self.transformer.state_dict(), model_path)]. *)
Definition save_snapshot (model_path : string) : M Store unit :=
  state ← gets transformer_state;
  torch_save (ObjTensor <$> state) model_path.

Section Checkpoints.
Context (L : Library).

(** [transformer.load_state_dict(arg)] and [self.optim.load_state_dict(arg)] *)
Definition transformer_load_state_dict (arg : obj) : M Store unit :=
  fun s =>
    let (r, sd) := load_module_state L (transformer_state s) arg in
    (r, set_transformer_state sd s).

Definition optim_load_state_dict (arg : obj) : M Store unit :=
  fun s =>
    let (r, sd) := load_optim_state L (optim_state s) arg in
    (r, set_optim_state sd s).

(** [SingleStageTrainer.load] *)
Definition load (path : string) : M Store unit :=
  files ← gets disk;
  match files !! path with
  | None => raise AssertionError
  | Some pkg =>
      model ← pkg_getitem pkg "model";
      transformer_load_state_dict model;;
      optim ← pkg_getitem pkg "optim";
      optim_load_state_dict optim
  end.

End Checkpoints.

(** A library after PyTorch.  The transformer loads strictly: every entry it
    holds takes the value given under its name, if there is one, and the call
    then raises a [RuntimeError] unless the names given are exactly the names
    held; what is not a state dict is refused.  The optimizer reads the
    entries "param_groups" and "state", in this order, before it changes
    anything. *)
Definition strict_library : Library :=
  {| load_module_state := fun held arg =>
       match arg with
       | ObjStateDict sd =>
           let loaded := map_imap (fun name t => Some (default t (sd !! name))) held in
           if bool_decide (dom sd = dom held) then (Ok tt, loaded)
           else (Raise RuntimeError, loaded)
       | ObjTensor _ => (Raise TypeError, held)
       end;
     load_optim_state := fun held arg =>
       match arg with
       | ObjStateDict sd =>
           match sd !! "param_groups", sd !! "state" with
           | None, _ => (Raise (KeyError "param_groups"), held)
           | Some _, None => (Raise (KeyError "state"), held)
           | Some groups, Some state =>
               (Ok tt, <["param_groups" := groups]> (<["state" := state]> ∅))
           end
       | ObjTensor _ => (Raise AttributeError, held)
       end |}.

Definition sample_store : Store :=
  {| transformer_state := {["embed.weight" := 1%Z; "to_logits.weight" := 2%Z]};
     optim_state := {["state" := 3%Z; "param_groups" := 4%Z]};
     disk := ∅ |}.

(** The store after more training: both states have moved on. *)
Definition trained_on (s : Store) : Store :=
  {| transformer_state := Z.succ <$> transformer_state s;
     optim_state := Z.succ <$> optim_state s;
     disk := disk s |}.

(** Weights for every entry of the transformer. *)
Definition other_weights : state_dict :=
  {["embed.weight" := 7%Z; "to_logits.weight" := 8%Z]}.

(** A store whose disk holds a file with the weights only. *)
Definition weights_only_store : Store :=
  {| transformer_state := transformer_state sample_store;
     optim_state := optim_state sample_store;
     disk := {["weights.pt" := {["model" := ObjStateDict other_weights]}]} |}.

(** A membership in a list of events that are all different from the one
    looked for. *)
Ltac decompose_elem_of H :=
  repeat (apply elem_of_cons in H as [H|H]; [discriminate H|]);
  now apply elem_of_nil in H.

(** * Properties *)

(** ** The monad *)

Lemma bind_Ok_inv {S A B : Type} (c : M S A) (k : A -> M S B) s b s' :
  (c ≫= k) s = (Ok b, s') ->
  exists a s1, c s = (Ok a, s1) /\ k a s1 = (Ok b, s').
Proof.
  unfold mbind, M_bind, bind.
  destruct (c s) as [[a|e] s1]; [eauto | discriminate].
Qed.

Lemma bind_inv {S A B : Type} (c : M S A) (k : A -> M S B) s r s' :
  (c ≫= k) s = (r, s') ->
  (exists a s1, c s = (Ok a, s1) /\ k a s1 = (r, s')) \/
  (exists e, c s = (Raise e, s') /\ r = Raise e).
Proof.
  unfold mbind, M_bind, bind.
  destruct (c s) as [[a|e] s1]; [eauto | ].
  intros [= <- <-]. eauto.
Qed.

Lemma bind_Ok_run {S A B : Type} (c : M S A) (k : A -> M S B) s a s1 :
  c s = (Ok a, s1) -> (c ≫= k) s = k a s1.
Proof. unfold mbind, M_bind, bind. now intros ->. Qed.

Lemma bind_Raise_run {S A B : Type} (c : M S A) (k : A -> M S B) s e s1 :
  c s = (Raise e, s1) -> (c ≫= k) s = (Raise e, s1).
Proof. unfold mbind, M_bind, bind. now intros ->. Qed.

(** ** Frames *)

Lemma frame_refl s : frame s s.
Proof. repeat split. Qed.

Lemma frame_trans s1 s2 s3 : frame s1 s2 -> frame s2 s3 -> frame s1 s3.
Proof.
  intros (H1 & H2 & H3) (H4 & H5 & H6).
  repeat split; congruence.
Qed.

Lemma observe_app evs evs' : observe (evs ++ evs') = observe evs ++ observe evs'.
Proof. apply List.filter_app. Qed.

Lemma frame_emit e s :
  observable e = false -> frame s (on_world (emit_w e) s).
Proof.
  intros He. repeat split. cbn.
  rewrite observe_app. cbn. rewrite He. apply app_nil_r.
Qed.

(** ** Counting field names *)

Lemma count_elements_replicate_from (el : string) (n k : nat) :
  foldl (fun counts el =>
           let counts := match counts !! el with
                         | None => <[el := 0]> counts
                         | Some _ => counts
                         end in
           <[el := default 0 (counts !! el) + 1]> counts)
        ({[el := k]} : gmap string nat) (replicate n el) = {[el := k + n]}.
Proof.
  revert k. induction n as [|n IH]; intros k; cbn.
  - now rewrite Nat.add_0_r.
  - rewrite lookup_singleton_eq. cbn.
    rewrite insert_singleton_eq. rewrite IH.
    rewrite lookup_singleton_eq. cbn.
    now replace (k + 1 + n) with (k + S n) by lia.
Qed.

Lemma count_elements_replicate (el : string) (n : nat) :
  count_elements (replicate (S n) el) = {[el := S n]}.
Proof.
  unfold count_elements. cbn.
  rewrite lookup_empty. rewrite lookup_insert_eq. cbn.
  rewrite insert_insert_eq. rewrite insert_empty.
  apply count_elements_replicate_from.
Qed.

Lemma has_duplicates_replicate (el : string) (n : nat) :
  has_duplicates (replicate n el) = bool_decide (2 <= n).
Proof.
  destruct n as [|n].
  - reflexivity.
  - unfold has_duplicates. rewrite count_elements_replicate.
    rewrite map_to_list_singleton. cbn.
    destruct n as [|n].
    + reflexivity.
    + destruct (decide (S (S n) > 1)) as [_|Hle]; [cbn | lia].
      symmetry. apply bool_decide_eq_true. lia.
Qed.

(** ** Routing *)

Lemma is_bearable_run el data_type s :
  is_bearable el data_type s = (Ok (data_type el), bearable_more 1 s).
Proof. reflexivity. Qed.

Lemma bearable_more_more n m s :
  bearable_more n (bearable_more m s) = bearable_more (n + m) s.
Proof.
  unfold bearable_more, on_world. cbn. now rewrite Nat.add_assoc.
Qed.

Lemma bearable_more_self n s : self (bearable_more n s) = self s.
Proof. reflexivity. Qed.

(** The inner loop always ends, after at most one call per entry, and tells
    whether some entry accepts the element. *)
Lemma first_bearable_run el config s :
  exists found n,
    first_bearable el config s = (Ok found, bearable_more n s) /\
    n <= length config /\
    (found = None <-> Forall (fun entry : string * hint => entry.2 el = false) config) /\
    (forall name, found = Some name -> name ∈ config.*1).
Proof.
  revert s. induction config as [|[name data_type] config IH]; intros s.
  - exists None, 0. cbn. repeat split; auto; try discriminate.
    destruct s as [t []]; reflexivity.
  - cbn [first_bearable].
    rewrite (bind_Ok_run _ _ _ _ _ (is_bearable_run el data_type s)).
    destruct (data_type el) eqn:Hel.
    + exists (Some name), 1. cbn. repeat split; try lia; try discriminate.
      * intros H. inversion H; subst. cbn in *. congruence.
      * intros ? [= <-]. apply elem_of_cons. now left.
    + destruct (IH (bearable_more 1 s)) as (found & n & Hrun & Hn & Hnone & Hsome).
      exists found, (n + 1). rewrite Hrun, bearable_more_more.
      cbn. repeat split; try lia.
      * intros H. constructor; [exact Hel | now apply Hnone].
      * intros H. apply Hnone. now inversion H.
      * intros ? H. apply elem_of_cons. right. exact (Hsome _ H).
Qed.

Lemma determine_types_run data config s :
  exists r n,
    determine_types data config s = (r, bearable_more n s) /\
    (Forall (fun el => Exists (fun entry : string * hint => entry.2 el = true) config) data ->
     exists output, r = Ok output /\ length output = length data /\
                    Forall (fun name => name ∈ config.*1) output) /\
    (Exists (fun el => Forall (fun entry : string * hint => entry.2 el = false) config) data ->
     r = Raise TypeError).
Proof.
  revert s. induction data as [|el data IH]; intros s.
  - exists (Ok []), 0. split; [destruct s as [t []]; reflexivity|]. split.
    + intros _. exists []. auto.
    + intros H. inversion H.
  - cbn [determine_types].
    destruct (first_bearable_run el config s) as (found & n & Hrun & _ & Hnone & Hsome).
    rewrite (bind_Ok_run _ _ _ _ _ Hrun).
    destruct found as [name|].
    + destruct (IH (bearable_more n s)) as (r & m & Hrec & Hall & Hsome').
      rewrite bearable_more_more in Hrec.
      destruct r as [output|e].
      * exists (Ok (name :: output)), (m + n).
        rewrite (bind_Ok_run _ _ _ _ _ Hrec). split; [reflexivity|]. split.
        -- intros H. inversion H; subst.
           destruct (Hall ltac:(assumption)) as (output' & [= <-] & Hlen & Hin).
           exists (name :: output). cbn. repeat split; auto.
        -- intros H. inversion H as [? ? Hel|? ? Hrest]; subst.
           ++ apply Hnone in Hel. discriminate.
           ++ specialize (Hsome' Hrest). discriminate.
      * exists (Raise e), (m + n).
        rewrite (bind_Raise_run _ _ _ _ _ Hrec). split; [reflexivity|]. split.
        -- intros H. inversion H; subst.
           destruct (Hall ltac:(assumption)) as (output' & [=] & _).
        -- intros H. inversion H as [? ? Hel|? ? Hrest]; subst.
           ++ apply Hnone in Hel. discriminate.
           ++ now apply Hsome'.
    + exists (Raise TypeError), n. split; [reflexivity|]. split.
      * intros H. inversion H as [|? ? Hel]; subst.
        assert (Hno : Forall (fun entry : string * hint => entry.2 el = false) config)
          by now apply Hnone.
        exfalso. apply Exists_exists in Hel as (entry & Hin & Htrue).
        rewrite Forall_forall in Hno. specialize (Hno _ Hin). congruence.
      * reflexivity.
Qed.

Lemma classifiable_table el :
  classifiable el <->
  Exists (fun entry : string * hint => entry.2 el = true) DATASET_FIELD_TYPE_CONFIG.
Proof.
  unfold classifiable, DATASET_FIELD_TYPE_CONFIG. split.
  - intros H. now constructor.
  - intros H. inversion H as [? ? Hel|? ? Hrest]; [exact Hel | inversion Hrest].
Qed.

Lemma unclassifiable_table el :
  input_audio_hint el = false <->
  Forall (fun entry : string * hint => entry.2 el = false) DATASET_FIELD_TYPE_CONFIG.
Proof.
  unfold DATASET_FIELD_TYPE_CONFIG. split.
  - intros H. now repeat constructor.
  - intros H. now inversion H.
Qed.

Lemma all_input_audio (output : list string) :
  Forall (fun name => name ∈ DATASET_FIELD_TYPE_CONFIG.*1) output ->
  output = replicate (length output) "input_audio".
Proof.
  induction 1 as [|name output Hin _ IH]; [reflexivity|].
  cbn in *. rewrite <- IH. f_equal. now apply list_elem_of_singleton in Hin.
Qed.

(** On the fixed table: every element an audio tensor gives one
    ["input_audio"] per element; any other element gives a type error. *)
Lemma determine_types_fixed data s :
  exists r n,
    determine_types data DATASET_FIELD_TYPE_CONFIG s = (r, bearable_more n s) /\
    (Forall classifiable data -> r = Ok (replicate (length data) "input_audio")) /\
    (Exists (fun el => input_audio_hint el = false) data -> r = Raise TypeError).
Proof.
  destruct (determine_types_run data DATASET_FIELD_TYPE_CONFIG s)
    as (r & n & Hrun & Hall & Hsome).
  exists r, n. split; [exact Hrun|]. split.
  - intros H.
    destruct Hall as (output & -> & Hlen & Hin).
    { eapply Forall_impl; [exact H|]. intros el. apply classifiable_table. }
    rewrite (all_input_audio _ Hin). now rewrite Hlen.
  - intros H. apply Hsome.
    eapply Exists_impl; [exact H|]. intros el. apply unclassifiable_table.
Qed.

(** With a cached mapping nothing is inspected and nothing changes. *)
Lemma data_tuple_to_kwargs_cached data s fields :
  ds_fields (self s) = Some fields ->
  data_tuple_to_kwargs data s = (Ok (dict_of_zip fields data), s).
Proof.
  intros H. unfold data_tuple_to_kwargs. run. rewrite H. cbn. now rewrite H.
Qed.

(** Without one, the outcome follows that of [determine_types]. *)
Lemma data_tuple_to_kwargs_infer_ok data s fields s1 :
  ds_fields (self s) = None ->
  determine_types data DATASET_FIELD_TYPE_CONFIG s = (Ok fields, s1) ->
  data_tuple_to_kwargs data s =
    (if has_duplicates fields then Raise AssertionError
     else Ok (dict_of_zip fields data),
     on_self (set_ds_fields (Some fields)) s1).
Proof.
  intros H Hrun. unfold data_tuple_to_kwargs. run. rewrite H, Hrun.
  destruct (has_duplicates fields); reflexivity.
Qed.

Lemma data_tuple_to_kwargs_infer_raise data s e s1 :
  ds_fields (self s) = None ->
  determine_types data DATASET_FIELD_TYPE_CONFIG s = (Raise e, s1) ->
  data_tuple_to_kwargs data s = (Raise e, s1).
Proof.
  intros H Hrun. unfold data_tuple_to_kwargs. run. now rewrite H, Hrun.
Qed.

(** Whatever the outcome, routing changes the cached mapping and the count
    of predicate calls, and nothing else. *)
Lemma data_tuple_to_kwargs_state data s r s' :
  data_tuple_to_kwargs data s = (r, s') ->
  exists n cached, s' = bearable_more n (on_self (set_ds_fields cached) s) /\
                   (forall kwargs, r = Ok kwargs -> is_Some cached).
Proof.
  intros Hrun. destruct (ds_fields (self s)) as [fields|] eqn:Hc.
  - rewrite (data_tuple_to_kwargs_cached _ _ _ Hc) in Hrun.
    injection Hrun as <- <-. exists 0, (Some fields). split; [|eauto].
    destruct s as [[] []]. cbn in *. now subst.
  - destruct (determine_types_fixed data s) as (r1 & n & Hdt & _).
    destruct r1 as [fields|e].
    + rewrite (data_tuple_to_kwargs_infer_ok _ _ _ _ Hc Hdt) in Hrun.
      injection Hrun as <- <-. exists n, (Some fields). split; [reflexivity | eauto].
    + rewrite (data_tuple_to_kwargs_infer_raise _ _ _ _ Hc Hdt) in Hrun.
      injection Hrun as <- <-. exists n, None. split; [|discriminate].
      destruct s as [[] []]. cbn in *. now subst.
Qed.

Lemma data_tuple_to_kwargs_frame data s r s' :
  data_tuple_to_kwargs data s = (r, s') ->
  frame s s' /\ forward_calls (world s') = forward_calls (world s) /\
  trace (world s') = trace (world s) /\
  dl_iter (self s') = dl_iter (self s) /\
  valid_dl_iter (self s') = valid_dl_iter (self s).
Proof.
  intros Hrun.
  destruct (data_tuple_to_kwargs_state _ _ _ _ Hrun) as (n & cached & -> & _).
  repeat split.
Qed.

(** A routable batch, or a mapping cached earlier, and routing succeeds and
    leaves a mapping cached. *)
Lemma data_tuple_to_kwargs_ok data s :
  routable data \/ is_Some (ds_fields (self s)) ->
  exists kwargs s', data_tuple_to_kwargs data s = (Ok kwargs, s') /\
                    is_Some (ds_fields (self s')).
Proof.
  intros H. destruct (ds_fields (self s)) as [fields|] eqn:Hc.
  - rewrite (data_tuple_to_kwargs_cached _ _ _ Hc). do 2 eexists. split; [reflexivity|].
    rewrite Hc. eauto.
  - destruct H as [[Hlen Hall]|[? [=]]].
    destruct (determine_types_fixed data s) as (r1 & n & Hdt & Hok & _).
    rewrite (Hok Hall) in Hdt.
    rewrite (data_tuple_to_kwargs_infer_ok _ _ _ _ Hc Hdt).
    rewrite has_duplicates_replicate.
    rewrite bool_decide_eq_false_2 by lia.
    do 2 eexists. split; [reflexivity|]. cbn. eauto.
Qed.

(** ** The accumulation loop *)

Lemma config_fields t t' :
  config t' = config t ->
  steps t' = steps t /\ grad_accum_every t' = grad_accum_every t /\
  save_results_every t' = save_results_every t /\
  save_model_every t' = save_model_every t /\
  results_folder t' = results_folder t /\
  max_grad_norm t' = max_grad_norm t /\
  num_train_steps t' = num_train_steps t /\
  train_wrapper t' = train_wrapper t.
Proof.
  intros H.
  repeat split;
    [ apply (f_equal steps) in H | apply (f_equal grad_accum_every) in H
    | apply (f_equal save_results_every) in H | apply (f_equal save_model_every) in H
    | apply (f_equal results_folder) in H | apply (f_equal max_grad_norm) in H
    | apply (f_equal num_train_steps) in H | apply (f_equal train_wrapper) in H ];
    exact H.
Qed.

Lemma config_set_dl_iter v t : config (set_dl_iter v t) = config t.
Proof. reflexivity. Qed.

Lemma config_set_valid_dl_iter v t : config (set_valid_dl_iter v t) = config t.
Proof. reflexivity. Qed.

Lemma config_set_ds_fields v t : config (set_ds_fields v t) = config t.
Proof. reflexivity. Qed.

Lemma accum_loop_inv E n logs s r s' :
  accum_loop E n logs s = (r, s') ->
  frame s s' /\
  valid_dl_iter (self s') = valid_dl_iter (self s) /\
  (forall logs', r = Ok logs' ->
     forward_calls (world s') = forward_calls (world s) + n /\
     logs' = accum_losses (grad_accum_every (self s)) logs
               (forward_loss E <$> seq (forward_calls (world s)) n)).
Proof.
  revert logs s. induction n as [|n IH]; intros logs s Hrun.
  - injection Hrun as <- <-. split; [apply frame_refl|]. split; [reflexivity|].
    intros ? [= <-]. split; [lia | reflexivity].
  - cbn [accum_loop] in Hrun. run_step_in Hrun.
    match type of Hrun with
    | context [data_tuple_to_kwargs ?d ?s0] =>
        destruct (data_tuple_to_kwargs d s0) as [[kwargs|e] s1] eqn:Hroute;
        destruct (data_tuple_to_kwargs_frame _ _ _ _ Hroute)
          as ((Hcfg & Hobs & Hoid) & Hfwd & Htr & Hdl & Hvdl)
    end; cbn in Hcfg, Hobs, Hoid, Hfwd, Htr, Hdl, Hvdl;
      rewrite config_set_dl_iter in Hcfg.
    + apply IH in Hrun as ((Hcfg' & Hobs' & Hoid') & Hvdl' & Hlogs).
      cbn in Hcfg', Hobs', Hoid', Hvdl', Hlogs.
      destruct (config_fields _ _ Hcfg) as (_ & Hevery & _).
      rewrite !observe_app, Htr, !observe_app in Hobs'. cbn in Hobs'.
      rewrite !app_nil_r in Hobs'.
      split; [|split].
      * unfold frame. repeat split; congruence.
      * congruence.
      * intros logs' ->. destruct (Hlogs _ eq_refl) as (Hcalls & ->).
        rewrite Hfwd in *. split; [lia|].
        cbn [seq fmap list_fmap accum_losses foldl]. now rewrite Hevery.
    + injection Hrun as <- <-.
      rewrite !observe_app in Hobs. cbn in Hobs. rewrite !app_nil_r in Hobs.
      split; [|split]; [unfold frame; repeat split; congruence | congruence | discriminate].
Qed.

Lemma accum_losses_cons every logs loss losses :
  accum_losses every logs (loss :: losses) =
  accum_losses every
    (<["loss" := (default 0 (logs !! "loss") + loss / float_of_Z every)%float]> logs)
    losses.
Proof. reflexivity. Qed.

Lemma accum_losses_from every logs acc losses :
  logs !! "loss" = Some acc ->
  accum_losses every logs losses !! "loss" =
    Some (foldl (fun acc loss => (acc + loss / float_of_Z every)%float) acc losses).
Proof.
  revert logs acc. induction losses as [|loss losses IH]; intros logs acc Hacc.
  - exact Hacc.
  - rewrite accum_losses_cons. cbn [foldl].
    apply IH. rewrite Hacc. cbn. apply lookup_insert_eq.
Qed.

Lemma accum_losses_loss every losses :
  losses <> [] ->
  accum_losses every ∅ losses !! "loss" =
    Some (foldl (fun acc loss => (acc + loss / float_of_Z every)%float) 0%float losses).
Proof.
  destruct losses as [|loss losses]; [congruence|]. intros _.
  rewrite accum_losses_cons. cbn [foldl].
  apply accum_losses_from. rewrite lookup_empty. cbn. apply lookup_insert_eq.
Qed.

Lemma accum_losses_nil every logs : accum_losses every logs [] = logs.
Proof. reflexivity. Qed.

Lemma accum_loop_ok E n logs s :
  (forall k, routable (train_batches E k)) ->
  exists logs' s', accum_loop E n logs s = (Ok logs', s').
Proof.
  intros Htrain. revert logs s. induction n as [|n IH]; intros logs s.
  - now exists logs, s.
  - cbn [accum_loop]. run_step.
    match goal with
    | |- context [data_tuple_to_kwargs ?d ?s0] =>
        destruct (data_tuple_to_kwargs_ok d s0) as (kwargs & s1 & -> & _);
        [left; apply Htrain|]
    end.
    apply IH.
Qed.

(** ** Validation and snapshots *)

Lemma sample_results_inv E st s r s' :
  sample_results E st s = (r, s') ->
  config (self s') = config (self s) /\
  next_oid (world s') = next_oid (world s) /\
  (r = Ok tt ->
   observe (trace (world s')) =
     observe (trace (world s)) ++
     (if is_main_process E && (st mod save_results_every (self s) =? 0)%Z
      then [EvLog "valid_loss" (forward_loss E (forward_calls (world s))) st]
      else [])).
Proof.
  unfold sample_results. run_step. intros Hrun.
  destruct (is_main_process E); cbn [andb].
  - destruct (save_results_every (self s) =? 0)%Z.
    + injection Hrun as <- <-. repeat split. discriminate.
    + destruct (st mod save_results_every (self s) =? 0)%Z.
      * match type of Hrun with
        | context [data_tuple_to_kwargs ?d ?s0] =>
            destruct (data_tuple_to_kwargs d s0) as [[kwargs|e] s1] eqn:Hroute;
            destruct (data_tuple_to_kwargs_frame _ _ _ _ Hroute)
              as ((Hcfg & Hobs & Hoid) & Hfwd & Htr & Hdl & Hvdl)
        end; cbn in Hcfg, Hobs, Hoid, Hfwd, Htr, Hdl, Hvdl;
          rewrite config_set_valid_dl_iter in Hcfg;
          injection Hrun as <- <-; cbn.
        -- repeat split; [congruence..|]. intros _.
           rewrite !observe_app, Htr, !observe_app. cbn.
           rewrite !app_nil_r. now rewrite Hfwd.
        -- repeat split; [congruence..|]. discriminate.
      * injection Hrun as <- <-. repeat split. intros _. now rewrite app_nil_r.
  - injection Hrun as <- <-. repeat split. intros _. now rewrite app_nil_r.
Qed.

Lemma sample_results_ok E st s :
  (forall k, routable (valid_batches E k)) ->
  (is_main_process E = true -> save_results_every (self s) <> 0%Z) ->
  exists s', sample_results E st s = (Ok tt, s').
Proof.
  intros Hvalid Hevery. unfold sample_results. run_step.
  destruct (is_main_process E); [|eauto].
  destruct (Z.eqb_spec (save_results_every (self s)) 0) as [H0|_]; [now destruct Hevery|].
  destruct (st mod save_results_every (self s) =? 0)%Z; [|eauto].
  match goal with
  | |- context [data_tuple_to_kwargs ?d ?s0] =>
      destruct (data_tuple_to_kwargs_ok d s0) as (kwargs & s1 & -> & _);
      [left; apply Hvalid|]
  end.
  eauto.
Qed.

Lemma save_model_inv E st s r s' :
  save_model E st s = (r, s') ->
  self s' = self s /\
  next_oid (world s') = next_oid (world s) /\
  (r = Ok tt ->
   observe (trace (world s')) =
     observe (trace (world s)) ++
     (if is_main_process E && (st mod save_model_every (self s) =? 0)%Z
      then [EvTorchSave (results_folder (self s)) (model_name st)]
      else [])).
Proof.
  unfold save_model. run_step. intros Hrun.
  destruct (is_main_process E); cbn [andb].
  - destruct (save_model_every (self s) =? 0)%Z.
    + injection Hrun as <- <-. repeat split. discriminate.
    + destruct (st mod save_model_every (self s) =? 0)%Z;
        injection Hrun as <- <-; repeat split; intros _; cbn.
      * rewrite !observe_app. cbn. now rewrite app_nil_r.
      * now rewrite app_nil_r.
  - injection Hrun as <- <-. repeat split. intros _. now rewrite app_nil_r.
Qed.

Lemma save_model_ok E st s :
  (is_main_process E = true -> save_model_every (self s) <> 0%Z) ->
  exists s', save_model E st s = (Ok tt, s').
Proof.
  intros Hevery. unfold save_model. run_step.
  destruct (is_main_process E); [|eauto].
  destruct (Z.eqb_spec (save_model_every (self s)) 0) as [H0|_]; [now destruct Hevery|].
  destruct (st mod save_model_every (self s) =? 0)%Z; eauto.
Qed.

(** ** One step *)

Lemma config_set_steps v t : config (set_steps v t) = set_steps v (config t).
Proof. reflexivity. Qed.

Lemma set_steps_set_steps v v' t : set_steps v (set_steps v' t) = set_steps v t.
Proof. reflexivity. Qed.

(** What a step that returns has done. *)
Lemma train_step_inv E s logs s' :
  train_step E s = (Ok logs, s') ->
  logs !! "loss" =
    Some (foldl (fun acc loss => (acc + loss / float_of_Z (grad_accum_every (self s)))%float)
            0%float
            (forward_loss E <$> seq (forward_calls (world s))
                                    (Z.to_nat (grad_accum_every (self s))))) /\
  steps (self s') = f32_round (steps (self s) + 1) /\
  config (set_steps 0 (self s')) = config (set_steps 0 (self s)) /\
  next_oid (world s') = next_oid (world s) /\
  observe (trace (world s')) = observe (trace (world s)) ++ step_observations E s.
Proof.
  unfold train_step. run_step. intros Hrun.
  cbn [self on_world] in Hrun.
  destruct (accum_loop E _ ∅ _) as [[logs1|e] s1] eqn:Hloop; [|discriminate].
  apply accum_loop_inv in Hloop as ((Hcfg1 & Hobs1 & Hoid1) & _ & Hlogs).
  destruct (Hlogs _ eq_refl) as (Hfwd1 & Hlogs1). clear Hlogs.
  cbn in Hcfg1, Hobs1, Hoid1, Hfwd1, Hlogs1.
  rewrite observe_app in Hobs1. cbn in Hobs1.
  destruct (config_fields _ _ Hcfg1)
    as (Hsteps & Hevery & Hsre & Hsme & Hfolder & Hnorm & _ & _).
  assert (Hvalue : forall loss, logs1 !! "loss" = Some loss -> loss =
    foldl (fun acc loss => (acc + loss / float_of_Z (grad_accum_every (self s)))%float)
      0%float
      (forward_loss E <$> seq (forward_calls (world s))
                              (Z.to_nat (grad_accum_every (self s))))).
  { intros loss Hloss.
    destruct (Z.to_nat (grad_accum_every (self s))) as [|n] eqn:Hn.
    - rewrite Hlogs1, accum_losses_nil, lookup_empty in Hloss. discriminate.
    - rewrite Hlogs1, accum_losses_loss in Hloss by discriminate.
      now injection Hloss as <-. }
  destruct (logs1 !! "loss") as [loss|] eqn:Hloss;
    [|destruct (max_grad_norm (self s1)); discriminate].
  specialize (Hvalue _ eq_refl).
  destruct (max_grad_norm (self s1)) as [norm|].
  all: destruct (sample_results E _ _) as [[[]|e] s3] eqn:Hsample; [|discriminate].
  all: apply sample_results_inv in Hsample as (Hcfg3 & Hoid3 & Hobs3).
  all: specialize (Hobs3 eq_refl); cbn in Hcfg3, Hoid3, Hobs3.
  all: destruct (save_model E _ _) as [[[]|e] s4] eqn:Hsave; [|discriminate].
  all: apply save_model_inv in Hsave as (Hself4 & Hoid4 & Hobs4).
  all: specialize (Hobs4 eq_refl).
  all: injection Hrun as <- <-.
  all: destruct (config_fields _ _ Hcfg3) as (Hsteps3 & _ & Hsre3 & Hsme3 & Hfolder3 & _).
  all: cbn [self on_self on_world] in *.
  all: rewrite !observe_app in Hobs3; cbn in Hobs3; rewrite ?app_nil_r in Hobs3.
  all: split; [|split; [|split; [|split]]].
  all: try (rewrite Hloss; now rewrite Hvalue).
  all: try (cbn; rewrite Hself4; congruence).
  all: try (cbn; congruence).
  all: try (rewrite set_steps_set_steps, !config_set_steps, Hself4, Hcfg3, Hcfg1;
            reflexivity).
  all: cbn [world on_self]; rewrite Hobs4, Hobs3, Hobs1;
    unfold step_observations; cbn zeta;
    rewrite Hsme3, Hfolder3, Hsme, Hsre, Hfolder, Hfwd1;
    rewrite <- Hvalue; rewrite <- !app_assoc; reflexivity.
Qed.

(** When a step returns. *)
Lemma train_step_ok E s :
  (forall k, routable (train_batches E k)) ->
  (forall k, routable (valid_batches E k)) ->
  (1 <= grad_accum_every (self s))%Z ->
  (is_main_process E = true ->
   save_results_every (self s) <> 0%Z /\ save_model_every (self s) <> 0%Z) ->
  exists logs s', train_step E s = (Ok logs, s').
Proof.
  intros Htrain Hvalid Hevery Hmain.
  unfold train_step. run_step. cbn [self on_world].
  destruct (accum_loop_ok E (Z.to_nat (grad_accum_every (self s))) ∅
              (on_world (emit_w EvTransformerTrain) s) Htrain)
    as (logs1 & s1 & Hloop).
  rewrite Hloop.
  apply accum_loop_inv in Hloop as ((Hcfg1 & _) & _ & Hlogs).
  destruct (Hlogs _ eq_refl) as (_ & Hlogs1). clear Hlogs.
  destruct (config_fields _ _ Hcfg1) as (_ & _ & Hsre & Hsme & _).
  cbn in Hsre, Hsme, Hlogs1.
  assert (Hloss : is_Some (logs1 !! "loss")).
  { rewrite Hlogs1.
    destruct (Z.to_nat (grad_accum_every (self s))) as [|n] eqn:Hn; [lia|].
    rewrite accum_losses_loss by discriminate. eauto. }
  destruct Hloss as (loss & ->).
  destruct (max_grad_norm (self s1)).
  - match goal with
    | |- context [sample_results E ?st ?s0] =>
        destruct (sample_results_ok E st s0 Hvalid) as (s3 & Hsample);
        [cbn; rewrite Hsre; intros H; now apply Hmain|]
    end.
    rewrite Hsample.
    apply sample_results_inv in Hsample as (Hcfg3 & _).
    destruct (config_fields _ _ Hcfg3) as (_ & _ & _ & Hsme3 & _). cbn in Hsme3.
    destruct (save_model_ok E (steps (self s)) s3) as (s4 & ->);
      [rewrite Hsme3, Hsme; intros H; now apply Hmain|].
    eauto.
  - match goal with
    | |- context [sample_results E ?st ?s0] =>
        destruct (sample_results_ok E st s0 Hvalid) as (s3 & Hsample);
        [cbn; rewrite Hsre; intros H; now apply Hmain|]
    end.
    rewrite Hsample.
    apply sample_results_inv in Hsample as (Hcfg3 & _).
    destruct (config_fields _ _ Hcfg3) as (_ & _ & _ & Hsme3 & _). cbn in Hsme3.
    destruct (save_model_ok E (steps (self s)) s3) as (s4 & ->);
      [rewrite Hsme3, Hsme; intros H; now apply Hmain|].
    eauto.
Qed.

(** ** Reading a trace through its observable events *)

Lemma train_step_calls_observe evs : train_step_calls (observe evs) = train_step_calls evs.
Proof.
  unfold train_step_calls, observe.
  induction evs as [|e evs IH]; [reflexivity|]. destruct e; cbn; auto.
Qed.

Lemma checkpoints_observe evs : checkpoints (observe evs) = checkpoints evs.
Proof.
  unfold checkpoints, observe.
  induction evs as [|e evs IH]; [reflexivity|]. destruct e; cbn; congruence.
Qed.

Lemma logged_steps_observe key evs : logged_steps key (observe evs) = logged_steps key evs.
Proof.
  unfold logged_steps, observe.
  induction evs as [|e evs IH]; [reflexivity|]. destruct e; cbn; try congruence.
  destruct (String.eqb key0 key); cbn; congruence.
Qed.

Lemma logged_values_observe key evs : logged_values key (observe evs) = logged_values key evs.
Proof.
  unfold logged_values, observe.
  induction evs as [|e evs IH]; [reflexivity|]. destruct e; cbn; try congruence.
  destruct (String.eqb key0 key); cbn; congruence.
Qed.

Lemma train_step_calls_app evs evs' :
  train_step_calls (evs ++ evs') = train_step_calls evs + train_step_calls evs'.
Proof. unfold train_step_calls. now rewrite omap_app, length_app. Qed.

Lemma checkpoints_app evs evs' : checkpoints (evs ++ evs') = checkpoints evs ++ checkpoints evs'.
Proof. apply omap_app. Qed.

Lemma logged_steps_app key evs evs' :
  logged_steps key (evs ++ evs') = logged_steps key evs ++ logged_steps key evs'.
Proof. apply omap_app. Qed.

Lemma logged_values_app key evs evs' :
  logged_values key (evs ++ evs') = logged_values key evs ++ logged_values key evs'.
Proof. apply omap_app. Qed.

(** What one step adds to each reading. *)
Lemma step_train_step_calls E s : train_step_calls (step_observations E s) = 1.
Proof.
  unfold step_observations. cbn zeta. rewrite !train_step_calls_app.
  destruct (is_main_process E && _), (is_main_process E && _); reflexivity.
Qed.

Lemma step_checkpoints E s :
  checkpoints (step_observations E s) =
  if is_main_process E && (steps (self s) mod save_model_every (self s) =? 0)%Z
  then [(results_folder (self s), model_name (steps (self s)))] else [].
Proof.
  unfold step_observations. cbn zeta. rewrite !checkpoints_app.
  destruct (is_main_process E && _), (is_main_process E && _); reflexivity.
Qed.

Lemma step_valid_loss_steps E s :
  logged_steps "valid_loss" (step_observations E s) =
  if is_main_process E && (steps (self s) mod save_results_every (self s) =? 0)%Z
  then [steps (self s)] else [].
Proof.
  unfold step_observations. cbn zeta. rewrite !logged_steps_app.
  destruct (is_main_process E && _), (is_main_process E && _); reflexivity.
Qed.

Lemma step_train_loss_values E s :
  logged_values "train_loss" (step_observations E s) =
  [foldl (fun acc loss => (acc + loss / float_of_Z (grad_accum_every (self s)))%float)
     0%float (forward_loss E <$> seq (forward_calls (world s))
                                     (Z.to_nat (grad_accum_every (self s))))].
Proof.
  unfold step_observations. cbn zeta. rewrite !logged_values_app.
  destruct (is_main_process E && _), (is_main_process E && _); reflexivity.
Qed.

(** ** Float32 counters *)

Lemma f32_round_small z : (Z.abs z < 2 ^ 24)%Z -> f32_round z = z.
Proof.
  intros H. unfold f32_round.
  destruct (Z.ltb_spec (Z.abs z) (2 ^ 24)); [reflexivity | lia].
Qed.

Lemma f32_round_exact z : (Z.abs z <= 2 ^ 24)%Z -> f32_round z = z.
Proof.
  intros H. destruct (Z.eq_dec (Z.abs z) (2 ^ 24)%Z) as [Heq|Hne].
  - destruct (Z.abs_spec z) as [[_ Habs]|[_ Habs]]; rewrite Habs in Heq.
    + subst z. reflexivity.
    + replace z with (- 2 ^ 24)%Z by lia. reflexivity.
  - apply f32_round_small. lia.
Qed.

(** [f32_round] against the Standard Library's model of IEEE 754 at
    precision 24: adding one to a float32 counter, around [2^24]. *)
Example f32_round_agrees :
  Forall (fun z =>
            Z_of_SF (SFadd 24 128 (binary_normalize 24 128 z 0 false)
                       (binary_normalize 24 128 1 0 false))
            = Some (f32_round (z + 1)))
         [0; 1; 4; 16777214; 16777215; 16777216; 16777218; 16777220; 33554432;
          33554436]%Z.
Proof. repeat constructor. Qed.

(** ** The loop *)

Lemma due_steps_S every first count :
  due_steps every first (S count) =
  (if (first mod every =? 0)%Z then [first] else []) ++
  due_steps every (first + 1) count.
Proof.
  unfold due_steps. cbn [seq fmap list_fmap List.filter].
  rewrite Z.add_0_r. rewrite <- seq_shift, <- list_fmap_compose.
  replace (List.filter (fun i => (i mod every =? 0)%Z)
             ((fun i => (first + Z.of_nat i)%Z) ∘ S <$> seq 0 count))
    with (List.filter (fun i => (i mod every =? 0)%Z)
            ((fun i => (first + 1 + Z.of_nat i)%Z) <$> seq 0 count)).
  - destruct (first mod every =? 0)%Z; reflexivity.
  - f_equal. apply list_fmap_ext. intros i x _. cbn. lia.
Qed.

Lemma train_done E fuel s :
  (steps (self s) <? f32_round (num_train_steps (self s)))%Z = false ->
  train E fuel s = Some (Ok tt, on_world (emit_w (EvPrint MsgTrainingComplete)) s).
Proof. intros H. destruct fuel; cbn [train]; now rewrite H. Qed.

Lemma train_more E fuel s logs s' :
  (steps (self s) <? f32_round (num_train_steps (self s)))%Z = true ->
  train_step E s = (Ok logs, s') ->
  train E (S fuel) s = train E fuel (on_world (emit_w (EvLogFn logs)) s').
Proof. intros H Hstep. cbn [train]. now rewrite H, Hstep. Qed.

(** From any step on, with routable batches and counters below [2^24], the
    loop runs the steps that are left and stops; snapshots and validation
    losses come at the multiples of their periods. *)
Lemma train_run E :
  (forall k, routable (train_batches E k)) ->
  (forall k, routable (valid_batches E k)) ->
  forall (count fuel : nat) (s : Sess),
    (1 <= grad_accum_every (self s))%Z ->
    (is_main_process E = true ->
     save_results_every (self s) <> 0%Z /\ save_model_every (self s) <> 0%Z) ->
    (0 <= steps (self s))%Z ->
    (steps (self s) + Z.of_nat count = num_train_steps (self s))%Z ->
    (num_train_steps (self s) < 2 ^ 24)%Z ->
    count <= fuel ->
    exists s',
      train E fuel s = Some (Ok tt, s') /\
      steps (self s') = num_train_steps (self s) /\
      train_step_calls (trace (world s')) = train_step_calls (trace (world s)) + count /\
      checkpoints (trace (world s')) =
        checkpoints (trace (world s)) ++
        (if is_main_process E
         then (fun i => (results_folder (self s), model_name i)) <$>
              due_steps (save_model_every (self s)) (steps (self s)) count
         else []) /\
      logged_steps "valid_loss" (trace (world s')) =
        logged_steps "valid_loss" (trace (world s)) ++
        (if is_main_process E
         then due_steps (save_results_every (self s)) (steps (self s)) count
         else []).
Proof.
  intros Htrain Hvalid count.
  induction count as [|count IH]; intros fuel s Hevery Hmain Hpos Hleft Hsmall Hfuel.
  - rewrite train_done.
    2:{ rewrite f32_round_small by lia. apply Z.ltb_ge. lia. }
    eexists. split; [reflexivity|]. cbn [self world on_world emit_w trace].
    rewrite train_step_calls_app, checkpoints_app, logged_steps_app. cbn.
    rewrite !app_nil_r. repeat split; try lia.
    all: destruct (is_main_process E); now rewrite ?app_nil_r.
  - destruct fuel as [|fuel]; [lia|].
    destruct (train_step_ok E s Htrain Hvalid Hevery Hmain) as (logs & s1 & Hstep).
    rewrite (train_more E fuel s logs s1).
    2:{ rewrite f32_round_small by lia. apply Z.ltb_lt. lia. }
    2:{ exact Hstep. }
    apply train_step_inv in Hstep as (_ & Hsteps & Hcfg & _ & Hobs).
    rewrite f32_round_small in Hsteps by lia.
    rewrite !config_set_steps in Hcfg.
    apply (f_equal (set_steps (steps (self s1)))) in Hcfg.
    rewrite !set_steps_set_steps, <- !config_set_steps in Hcfg.
    destruct (config_fields _ _ Hcfg) as (_ & He & Hsre & Hsme & Hfolder & _ & Hnum & _).
    cbn in He, Hsre, Hsme, Hfolder, Hnum.
    destruct (IH fuel (on_world (emit_w (EvLogFn logs)) s1))
      as (s' & Hrun & Hend & Hcalls & Hsaved & Hlogged); cbn [self on_world]; try lia.
    { now rewrite Hsre, Hsme. }
    cbn [self on_world] in Hend.
    exists s'. split; [exact Hrun|]. split; [congruence|].
    cbn [world on_world trace emit_w] in Hcalls, Hsaved, Hlogged.
    rewrite train_step_calls_app in Hcalls.
    rewrite checkpoints_app in Hsaved. rewrite logged_steps_app in Hlogged.
    cbn in Hcalls, Hsaved, Hlogged. rewrite app_nil_r in Hsaved, Hlogged.
    rewrite <- (train_step_calls_observe (trace (world s1))), Hobs, train_step_calls_app,
      train_step_calls_observe, step_train_step_calls in Hcalls.
    rewrite <- (checkpoints_observe (trace (world s1))), Hobs, checkpoints_app,
      checkpoints_observe, step_checkpoints in Hsaved.
    rewrite <- (logged_steps_observe _ (trace (world s1))), Hobs, logged_steps_app,
      logged_steps_observe, step_valid_loss_steps in Hlogged.
    rewrite Hsteps, Hsre, Hsme, Hfolder in *.
    split; [lia|].
    rewrite Hsaved, Hlogged, !due_steps_S.
    destruct (is_main_process E); cbn [andb].
    + split.
      * rewrite <- app_assoc, fmap_app. f_equal. f_equal.
        destruct (steps (self s) mod save_model_every (self s) =? 0)%Z; reflexivity.
      * now rewrite <- app_assoc.
    + now rewrite !app_nil_r.
Qed.

(** ** The constructor *)

Lemma emit0_run e w : emit0 e w = (Ok tt, emit_w e w).
Proof. reflexivity. Qed.

Lemma build_wrapper_world a w r w' : build_wrapper a w = (r, w') -> w' = w.
Proof.
  unfold build_wrapper.
  repeat match goal with
         | |- context [if ?c then _ else _] => destruct c
         | |- context [match ?o with Some _ => _ | None => _ end] => destruct o
         end; now intros [= _ <-].
Qed.

Lemma build_wrapper_invalid a w :
  Args.stage a ∉ stage_literal -> build_wrapper a w = (Raise ValueError, w).
Proof.
  intros H. unfold build_wrapper, stage_literal in *.
  destruct (String.eqb_spec (Args.stage a) "semantic") as [Heq|_];
    [rewrite Heq in H; set_solver|].
  destruct (String.eqb_spec (Args.stage a) "coarse") as [Heq|_];
    [rewrite Heq in H; set_solver|].
  destruct (String.eqb_spec (Args.stage a) "fine") as [Heq|_];
    [rewrite Heq in H; set_solver|].
  reflexivity.
Qed.

Lemma build_wrapper_semantic_unconditioned a w :
  Args.stage a = "semantic" -> Args.audio_conditioner a = None ->
  build_wrapper a w = (Raise AssertionError, w).
Proof. intros Hs Hc. unfold build_wrapper. now rewrite Hs, Hc. Qed.

(** The trainer a successful construction returns. *)
Lemma init_inv E a w t w' :
  __init__ E a w = (Ok t, w') ->
  exists wrapper dataset w2 parts w3,
    build_wrapper a (emit_w EvAccelerator w) = (Ok wrapper, emit_w EvAccelerator w) /\
    create_dataset E a
      (emit_w (EvGetOptimizer (Args.lr a) (Args.wd a))
         (emit_w (EvStageWrapper wrapper) (emit_w EvAccelerator w))) = (Ok dataset, w2) /\
    split_for_validation E a dataset w2 = (Ok parts, w3) /\
    t = {| wav2vec := Args.wav2vec a;
           transformer := Args.transformer a;
           audio_conditioner := Args.audio_conditioner a;
           train_wrapper := wrapper;
           steps := 0;
           num_train_steps := Args.num_train_steps a;
           batch_size := Args.batch_size a;
           grad_accum_every := Args.grad_accum_every a;
           max_grad_norm := Args.max_grad_norm a;
           ds := parts.1;
           ds_fields := None;
           valid_ds := parts.2;
           dl_iter := 0;
           valid_dl_iter := 0;
           save_model_every := Args.save_model_every a;
           save_results_every := Args.save_results_every a;
           results_folder := Args.results_folder a |}.
Proof.
  unfold __init__. intros H.
  apply bind_Ok_inv in H as ([] & w0 & [= <-] & H).
  apply bind_Ok_inv in H as (wrapper & w1 & Hwrap & H).
  pose proof (build_wrapper_world _ _ _ _ Hwrap) as ->.
  apply bind_Ok_inv in H as ([] & ? & [= <-] & H).
  apply bind_Ok_inv in H as ([] & ? & [= <-] & H).
  apply bind_Ok_inv in H as (dataset & w2 & Hds & H).
  apply bind_Ok_inv in H as (parts & w3 & Hsplit & H).
  apply bind_Ok_inv in H as ([] & ? & [= <-] & H).
  apply bind_Ok_inv in H as ([] & ? & [= <-] & H).
  apply bind_Ok_inv in H as ([] & ? & [= <-] & H).
  apply bind_Ok_inv in H as ([] & ? & _ & H).
  apply bind_Ok_inv in H as ([] & ? & [= <-] & H).
  injection H as <- _.
  exists wrapper, dataset, w2, parts, w3. auto.
Qed.




(** ** Snapshot names *)

(** Whatever the stage wrapper, a step that returns has written at most one
    snapshot, under the name [model_name] gives its step number. *)
Lemma snapshot_of_step E s logs s' :
  train_step E s = (Ok logs, s') ->
  checkpoints (trace (world s')) =
    checkpoints (trace (world s)) ++
    (if is_main_process E && (steps (self s) mod save_model_every (self s) =? 0)%Z
     then [(results_folder (self s),
            "semantic.transformer." +:+ pretty (steps (self s)) +:+ ".pt")]
     else []).
Proof.
  intros Hstep. apply train_step_inv in Hstep as (_ & _ & _ & _ & Hobs).
  rewrite <- (checkpoints_observe (trace (world s'))), Hobs, checkpoints_app,
    checkpoints_observe, step_checkpoints.
  reflexivity.
Qed.

(** ** The claims *)

(** C1.  Whatever the stage, the periodic snapshot of step [s] goes to
    [semantic.transformer.<s>.pt] under the results folder: the trainer of the
    coarse stage writes its snapshot of step 0 to [semantic.transformer.0.pt],
    not to [coarse.transformer.0.pt]. *)
Theorem coarse_snapshot_named_semantic :
  exists s logs s',
    sample_session (sample_args "coarse" 5 1 100 1000 0.05) = Some s /\
    stage_of (train_wrapper (self s)) = "coarse" /\
    train_step unit_loss_env s = (Ok logs, s') /\
    checkpoints (trace (world s')) = [("./results", "semantic.transformer.0.pt")].
Proof.
  eexists _, _, _. split; [vm_compute; reflexivity|].
  split; [reflexivity|]. split; [vm_compute; reflexivity|]. reflexivity.
Qed.

(** C2.  A session constructed with [num_train_steps=5], [save_model_every=2]
    and [save_results_every=2], on the primary process and over batches the
    routing accepts: [train] ends after exactly five calls of [train_step],
    with the counter at 5, having written the snapshots of steps 0, 2 and 4
    and logged a validation loss at steps 0, 2 and 4, and nothing else of
    either kind. *)
Theorem train_five_steps E a w t w' fuel :
  SingleStageTrainer E a w = (Ok t, w') ->
  Args.num_train_steps a = 5%Z ->
  Args.save_model_every a = 2%Z ->
  Args.save_results_every a = 2%Z ->
  (1 <= Args.grad_accum_every a)%Z ->
  is_main_process E = true ->
  (forall k, routable (train_batches E k)) ->
  (forall k, routable (valid_batches E k)) ->
  5 <= fuel ->
  exists s',
    train E fuel {| self := t; world := w' |} = Some (Ok tt, s') /\
    steps (self s') = 5%Z /\
    train_step_calls (trace (world s')) = train_step_calls (trace w') + 5 /\
    checkpoints (trace (world s')) =
      checkpoints (trace w') ++
      [(Args.results_folder a, "semantic.transformer.0.pt");
       (Args.results_folder a, "semantic.transformer.2.pt");
       (Args.results_folder a, "semantic.transformer.4.pt")] /\
    logged_steps "valid_loss" (trace (world s')) =
      logged_steps "valid_loss" (trace w') ++ [0; 2; 4]%Z.
Proof.
  intros Hnew Hnum Hsme Hsre Hevery Hmain Htrain Hvalid Hfuel.
  unfold SingleStageTrainer in Hnew.
  destruct (bool_decide _); [|discriminate].
  apply init_inv in Hnew as (wrapper & dataset & w2 & parts & w3 & _ & _ & _ & ->).
  match goal with
  | |- context [train E fuel ?s0] =>
      destruct (train_run E Htrain Hvalid 5 fuel s0)
        as (s' & Hrun & Hend & Hcalls & Hsaved & Hlogged)
  end; cbn [self steps grad_accum_every save_results_every save_model_every
            num_train_steps]; try lia.
  exists s'. cbn [self world steps num_train_steps save_model_every save_results_every
                  results_folder] in *.
  rewrite Hmain, Hsme in Hsaved. rewrite Hmain, Hsre in Hlogged.
  repeat split; try assumption; congruence.
Qed.

Lemma train_five_steps_witness :
  exists t w',
    SingleStageTrainer unit_loss_env (sample_args "semantic" 5 1 2 2 0.05) empty_world
      = (Ok t, w') /\
    exists s',
      train unit_loss_env 5 {| self := t; world := w' |} = Some (Ok tt, s') /\
      steps (self s') = 5%Z /\
      train_step_calls (trace (world s')) = train_step_calls (trace w') + 5 /\
      checkpoints (trace (world s')) =
        checkpoints (trace w') ++
        [("./results", "semantic.transformer.0.pt");
         ("./results", "semantic.transformer.2.pt");
         ("./results", "semantic.transformer.4.pt")] /\
      logged_steps "valid_loss" (trace (world s')) =
        logged_steps "valid_loss" (trace w') ++ [0; 2; 4]%Z.
Proof.
  eexists _, _. split; [vm_compute; reflexivity|].
  apply (train_five_steps unit_loss_env (sample_args "semantic" 5 1 2 2 0.05) empty_world).
  - vm_compute; reflexivity.
  - reflexivity.
  - reflexivity.
  - reflexivity.
  - simpl; lia.
  - reflexivity.
  - intros k; split; [simpl; lia | repeat constructor].
  - intros k; split; [simpl; lia | repeat constructor].
  - lia.
Defined.

(** In exact arithmetic dividing each loss and dividing the sum agree: the
    two differ by rounding only. *)
Lemma divide_then_sum_exact_linear (losses : list Q) (every : Q) :
  ~ (every == 0)%Q ->
  (divide_then_sum_exact losses every == sum_then_divide_exact losses every)%Q.
Proof.
  intros Hn. unfold divide_then_sum_exact, sum_then_divide_exact.
  assert (Hsum : forall ls b, (foldl Qplus b ls == b + foldl Qplus 0 ls)%Q).
  { induction ls as [|x ls IH]; intros b; cbn [foldl]; [ring|].
    rewrite IH, (IH (0 + x)%Q). ring. }
  assert (Hdiv : forall ls a,
             (foldl (fun acc loss => acc + loss / every) a ls
              == a + foldl Qplus 0 ls / every)%Q).
  { induction ls as [|l ls IH]; intros a; cbn [foldl].
    - field. exact Hn.
    - rewrite IH, (Hsum ls (0 + l)%Q). field. exact Hn. }
  rewrite Hdiv. field. exact Hn.
Qed.

(** C3, as the spec has it, fails: with ten micro-batches of loss [1.0] the
    spec's value is [(1.0 + ... + 1.0) / 10 = 1.0], and the step logs
    [0.1 + ... + 0.1], which is [0.9999999999999999] in binary64. *)
Lemma ten_unit_losses_not_averaged :
  exists s logs s',
    sample_session (sample_args "semantic" 5 10 100 1000 0.05) = Some s /\
    train_step unit_loss_env s = (Ok logs, s') /\
    micro_batch_losses unit_loss_env s = replicate 10 1%float /\
    sum_then_divide (micro_batch_losses unit_loss_env s) (grad_accum_every (self s))
      = 1%float /\
    logs !! "loss" = Some 0x1.fffffffffffffp-1%float /\
    logs !! "loss" <>
      Some (sum_then_divide (micro_batch_losses unit_loss_env s)
              (grad_accum_every (self s))).
Proof.
  eexists _, _, _. split; [vm_compute; reflexivity|].
  split; [vm_compute; reflexivity|].
  split; [vm_compute; reflexivity|].
  split; [vm_compute; reflexivity|].
  split; [vm_compute; reflexivity|].
  vm_compute. intros [= H].
Qed.

(** C3, amended.  For every step that returns, the ['loss'] of the returned
    log, which is also the [train_loss] sent to the tracker, is
    [l_1 / grad_accum_every + ... + l_n / grad_accum_every], added from [0.0]
    on in the order of the micro-batches, each division and addition rounded
    to binary64. *)
Theorem logged_loss_is_sum_of_quotients E s logs s' :
  train_step E s = (Ok logs, s') ->
  logs !! "loss" =
    Some (divide_then_sum (micro_batch_losses E s) (grad_accum_every (self s))) /\
  logged_values "train_loss" (trace (world s')) =
    logged_values "train_loss" (trace (world s)) ++
    [divide_then_sum (micro_batch_losses E s) (grad_accum_every (self s))].
Proof.
  intros Hstep. apply train_step_inv in Hstep as (Hloss & _ & _ & _ & Hobs).
  split; [exact Hloss|].
  rewrite <- (logged_values_observe _ (trace (world s'))), Hobs, logged_values_app,
    logged_values_observe, step_train_loss_values.
  reflexivity.
Qed.

Lemma logged_loss_is_sum_of_quotients_witness :
  exists s logs s',
    sample_session (sample_args "semantic" 5 3 100 1000 0.05) = Some s /\
    train_step unit_loss_env s = (Ok logs, s') /\
    logs !! "loss" =
      Some (divide_then_sum (micro_batch_losses unit_loss_env s)
              (grad_accum_every (self s))) /\
    logged_values "train_loss" (trace (world s')) =
      logged_values "train_loss" (trace (world s)) ++
      [divide_then_sum (micro_batch_losses unit_loss_env s) (grad_accum_every (self s))].
Proof.
  eexists _, _, _. split; [vm_compute; reflexivity|].
  split; [vm_compute; reflexivity|].
  apply (logged_loss_is_sum_of_quotients unit_loss_env).
  vm_compute; reflexivity.
Defined.

(** C4, as the spec has it, fails: the counter is a float32 tensor, and at
    [2^24 = 16777216] adding one gives [16777216] again. *)
Lemma step_counter_stalls :
  exists s0 logs s',
    sample_session (sample_args "semantic" 5 1 100 1000 0.05) = Some s0 /\
    train_step unit_loss_env (on_self (set_steps 16777216) s0) = (Ok logs, s') /\
    steps (self s') = 16777216%Z /\
    steps (self s') <> (steps (self (on_self (set_steps 16777216) s0)) + 1)%Z.
Proof.
  eexists _, _, _. split; [vm_compute; reflexivity|].
  split; [vm_compute; reflexivity|].
  split; [reflexivity|]. vm_compute. discriminate.
Qed.

(** C4, amended.  Every call of [train_step] that returns, with the counter
    below [2^24], leaves the counter greater by exactly one, whether or not
    the validation or the snapshot of that step fired. *)
Theorem train_step_increments_counter E s logs s' :
  train_step E s = (Ok logs, s') ->
  (0 <= steps (self s) < 2 ^ 24)%Z ->
  steps (self s') = (steps (self s) + 1)%Z.
Proof.
  intros Hstep Hrange. apply train_step_inv in Hstep as (_ & Hsteps & _).
  rewrite Hsteps. apply f32_round_exact. lia.
Qed.

Lemma train_step_increments_counter_witness :
  exists s logs s',
    sample_session (sample_args "semantic" 5 1 2 3 0.05) = Some s /\
    train_step unit_loss_env s = (Ok logs, s') /\
    (0 <= steps (self s) < 2 ^ 24)%Z /\
    steps (self s') = (steps (self s) + 1)%Z.
Proof.
  eexists _, _, _. split; [vm_compute; reflexivity|].
  split; [vm_compute; reflexivity|].
  split; [simpl; lia|].
  eapply (train_step_increments_counter unit_loss_env).
  - vm_compute; reflexivity.
  - simpl; lia.
Defined.

(** C5, as the spec has it, fails: the stage ['melody'] is refused, but by the
    check of the arguments, not with a value error. *)
Lemma unknown_stage_not_value_error :
  (Args.stage (sample_args "melody" 5 1 100 1000 0.05) ∉ stage_literal) /\
  SingleStageTrainer unit_loss_env (sample_args "melody" 5 1 100 1000 0.05) empty_world
    = (Raise (BeartypeCallHintParamViolation "stage"), empty_world) /\
  (SingleStageTrainer unit_loss_env (sample_args "melody" 5 1 100 1000 0.05) empty_world).1
    <> Raise ValueError.
Proof.
  split; [|split].
  - apply (bool_decide_eq_false
             (Args.stage (sample_args "melody" 5 1 100 1000 0.05) ∈ stage_literal)).
    vm_compute. reflexivity.
  - reflexivity.
  - discriminate.
Qed.

(** C5, amended.  A stage name outside ['semantic'], ['coarse'], ['fine']
    makes the construction fail: the [@beartype] check of the arguments
    refuses it with a call-hint violation before the body of the constructor
    runs, and nothing has been done by then; the value error is what the body
    raises for such a name when it is run without that check. *)
Theorem unknown_stage_rejected E a w :
  Args.stage a ∉ stage_literal ->
  SingleStageTrainer E a w = (Raise (BeartypeCallHintParamViolation "stage"), w) /\
  __init__ E a w = (Raise ValueError, emit_w EvAccelerator w).
Proof.
  intros Hstage. split.
  - unfold SingleStageTrainer. now rewrite bool_decide_eq_false_2.
  - unfold __init__.
    rewrite (bind_Ok_run _ _ _ _ _ (emit0_run EvAccelerator w)).
    apply bind_Raise_run. now apply build_wrapper_invalid.
Qed.

Lemma unknown_stage_rejected_witness :
  (Args.stage (sample_args "melody" 5 1 100 1000 0.05) ∉ stage_literal) /\
  SingleStageTrainer unit_loss_env (sample_args "melody" 5 1 100 1000 0.05) empty_world
    = (Raise (BeartypeCallHintParamViolation "stage"), empty_world) /\
  __init__ unit_loss_env (sample_args "melody" 5 1 100 1000 0.05) empty_world
    = (Raise ValueError, emit_w EvAccelerator empty_world).
Proof.
  assert (H : Args.stage (sample_args "melody" 5 1 100 1000 0.05) ∉ stage_literal).
  { apply (bool_decide_eq_false
             (Args.stage (sample_args "melody" 5 1 100 1000 0.05) ∈ stage_literal)).
    vm_compute. reflexivity. }
  split; [exact H|].
  apply (unknown_stage_rejected unit_loss_env _ empty_world H).
Defined.

(** C6.  Constructing a trainer for the stage ['semantic'] without an audio
    conditioner fails with an assertion error, when only the execution
    harness has been created: no dataset has been built or split, no data
    loader made and no batch drawn. *)
Theorem semantic_needs_conditioner E a w :
  Args.stage a = "semantic" ->
  Args.audio_conditioner a = None ->
  exists w',
    SingleStageTrainer E a w = (Raise AssertionError, w') /\
    trace w' = trace w ++ [EvAccelerator] /\
    Forall (fun e => data_event e = false) [EvAccelerator] /\
    next_oid w' = next_oid w.
Proof.
  intros Hstage Hcond. exists (emit_w EvAccelerator w).
  split; [|repeat constructor].
  unfold SingleStageTrainer. rewrite Hstage. cbn [bool_decide].
  rewrite bool_decide_eq_true_2 by (unfold stage_literal; set_solver).
  unfold __init__.
  rewrite (bind_Ok_run _ _ _ _ _ (emit0_run EvAccelerator w)).
  apply bind_Raise_run. now apply build_wrapper_semantic_unconditioned.
Qed.

Lemma semantic_needs_conditioner_witness :
  exists w',
    SingleStageTrainer unit_loss_env unconditioned_args empty_world
      = (Raise AssertionError, w') /\
    trace w' = trace empty_world ++ [EvAccelerator] /\
    Forall (fun e => data_event e = false) [EvAccelerator] /\
    next_oid w' = next_oid empty_world.
Proof.
  apply (semantic_needs_conditioner unit_loss_env unconditioned_args empty_world);
    reflexivity.
Defined.

(** The first batch that is routed leaves a mapping cached. *)
Lemma first_batch_caches_mapping data s kwargs s' :
  data_tuple_to_kwargs data s = (Ok kwargs, s') -> is_Some (ds_fields (self s')).
Proof.
  intros Hrun.
  destruct (data_tuple_to_kwargs_state _ _ _ _ Hrun) as (n & cached & -> & Hsome).
  cbn. eauto.
Qed.

(** C7.  Once a mapping is cached, [data_tuple_to_kwargs] on any batch zips
    that mapping with the batch and changes nothing: the cached mapping is
    the same afterwards and [is_bearable] has not been called. *)
Theorem cached_mapping_reused s fields data :
  ds_fields (self s) = Some fields ->
  exists s',
    data_tuple_to_kwargs data s = (Ok (dict_of_zip fields data), s') /\
    s' = s /\
    ds_fields (self s') = Some fields /\
    bearable_calls (world s') = bearable_calls (world s).
Proof.
  intros Hc. exists s. rewrite (data_tuple_to_kwargs_cached _ _ _ Hc). auto.
Qed.

Lemma cached_mapping_reused_witness :
  exists s,
    routed_session = Some s /\
    ds_fields (self s) = Some ["input_audio"] /\
    exists s',
      data_tuple_to_kwargs [Tensor float32 [2; 640]; PyObject "caption"] s
        = (Ok (dict_of_zip ["input_audio"] [Tensor float32 [2; 640]; PyObject "caption"]), s') /\
      s' = s /\
      ds_fields (self s') = Some ["input_audio"] /\
      bearable_calls (world s') = bearable_calls (world s).
Proof.
  eexists. split; [vm_compute; reflexivity|]. split; [reflexivity|].
  apply cached_mapping_reused. reflexivity.
Defined.

(** C8.  While no mapping is cached, a batch with an element that no hint of
    the table accepts makes [data_tuple_to_kwargs] raise a type error, and
    the trainer is as before: no mapping is cached. *)
Theorem unclassifiable_element_raises s data :
  ds_fields (self s) = None ->
  Exists (fun el => Forall (fun entry : string * hint => entry.2 el = false)
                      DATASET_FIELD_TYPE_CONFIG) data ->
  exists s',
    data_tuple_to_kwargs data s = (Raise TypeError, s') /\
    self s' = self s /\
    ds_fields (self s') = None.
Proof.
  intros Hc Hbad.
  destruct (determine_types_run data DATASET_FIELD_TYPE_CONFIG s)
    as (r & n & Hrun & _ & Hraise).
  rewrite (Hraise Hbad) in Hrun.
  exists (bearable_more n s).
  rewrite (data_tuple_to_kwargs_infer_raise _ _ _ _ Hc Hrun). auto.
Qed.

Lemma unclassifiable_element_raises_witness :
  exists s,
    sample_session (sample_args "semantic" 5 1 100 1000 0.05) = Some s /\
    exists s',
      data_tuple_to_kwargs [Tensor float32 [2; 640]; Tensor int64 [2; 640]] s
        = (Raise TypeError, s') /\
      self s' = self s /\
      ds_fields (self s') = None.
Proof.
  eexists. split; [vm_compute; reflexivity|].
  apply unclassifiable_element_raises.
  - reflexivity.
  - apply Exists_cons_tl, Exists_cons_hd. repeat constructor.
Defined.

Lemma classifiable_or_not data :
  Forall classifiable data \/ Exists (fun el => input_audio_hint el = false) data.
Proof.
  induction data as [|el data [IH|IH]].
  - left. constructor.
  - destruct (input_audio_hint el) eqn:Hel.
    + left. now constructor.
    + right. now constructor.
  - right. now apply Exists_cons_tl.
Qed.

(** C10, as stated, fails: the empty batch tuple is routed, to the empty
    mapping, and it has not exactly one element. *)
Lemma empty_batch_routes :
  exists s s',
    sample_session (sample_args "semantic" 5 1 100 1000 0.05) = Some s /\
    ds_fields (self s) = None /\
    data_tuple_to_kwargs [] s = (Ok ∅, s') /\
    ds_fields (self s') = Some [] /\
    length ([] : list value) <> 1.
Proof.
  eexists _, _. split; [vm_compute; reflexivity|].
  split; [reflexivity|]. split; [vm_compute; reflexivity|].
  split; [reflexivity|]. discriminate.
Qed.

(** C10, amended.  With the one-entry table and no mapping cached yet, a
    batch tuple of two or more elements always fails: with a type error when
    some element is not an audio tensor, and with the assertion on duplicate
    field names when all are.  Routing succeeds only for batch tuples of at
    most one element. *)
Theorem only_short_batches_route s data :
  ds_fields (self s) = None ->
  (2 <= length data ->
   (Exists (fun el => input_audio_hint el = false) data ->
    exists s', data_tuple_to_kwargs data s = (Raise TypeError, s')) /\
   (Forall classifiable data ->
    exists s', data_tuple_to_kwargs data s = (Raise AssertionError, s'))) /\
  (forall kwargs s', data_tuple_to_kwargs data s = (Ok kwargs, s') -> length data <= 1).
Proof.
  intros Hc.
  destruct (determine_types_fixed data s) as (r & n & Hrun & Hok & Hraise).
  assert (Hbad : Exists (fun el => input_audio_hint el = false) data ->
                 data_tuple_to_kwargs data s = (Raise TypeError, bearable_more n s)).
  { intros H. rewrite (Hraise H) in Hrun.
    apply (data_tuple_to_kwargs_infer_raise _ _ _ _ Hc Hrun). }
  assert (Hgood : Forall classifiable data ->
                  data_tuple_to_kwargs data s =
                  (if bool_decide (2 <= length data) then Raise AssertionError
                   else Ok (dict_of_zip (replicate (length data) "input_audio") data),
                   on_self (set_ds_fields (Some (replicate (length data) "input_audio")))
                     (bearable_more n s))).
  { intros H. rewrite (Hok H) in Hrun.
    rewrite (data_tuple_to_kwargs_infer_ok _ _ _ _ Hc Hrun).
    now rewrite has_duplicates_replicate. }
  split.
  - intros Hlen. split.
    + intros H. eexists. now apply Hbad.
    + intros H. eexists. rewrite (Hgood H).
      now rewrite bool_decide_eq_true_2 by exact Hlen.
  - intros kwargs s' Hrun'.
    destruct (classifiable_or_not data) as [Hall|Hsome].
    + rewrite (Hgood Hall) in Hrun'.
      destruct (bool_decide_reflect (2 <= length data)); [discriminate | lia].
    + rewrite (Hbad Hsome) in Hrun'. discriminate.
Qed.

Lemma only_short_batches_route_witness :
  exists s,
    sample_session (sample_args "semantic" 5 1 100 1000 0.05) = Some s /\
    ds_fields (self s) = None /\
    (2 <= length [Tensor float32 [2; 640]; Tensor float32 [2; 960]] ->
     (Exists (fun el => input_audio_hint el = false)
        [Tensor float32 [2; 640]; Tensor float32 [2; 960]] ->
      exists s', data_tuple_to_kwargs
                   [Tensor float32 [2; 640]; Tensor float32 [2; 960]] s
                 = (Raise TypeError, s')) /\
     (Forall classifiable [Tensor float32 [2; 640]; Tensor float32 [2; 960]] ->
      exists s', data_tuple_to_kwargs
                   [Tensor float32 [2; 640]; Tensor float32 [2; 960]] s
                 = (Raise AssertionError, s'))) /\
    (forall kwargs s',
       data_tuple_to_kwargs [Tensor float32 [2; 640]; Tensor float32 [2; 960]] s
         = (Ok kwargs, s') ->
       length [Tensor float32 [2; 640]; Tensor float32 [2; 960]] <= 1).
Proof.
  eexists. split; [vm_compute; reflexivity|]. split; [reflexivity|].
  apply only_short_batches_route. reflexivity.
Defined.




(** * Further properties *)

(** ** Duplicate field names *)

Lemma occurrences_cons x y tup :
  occurrences x (y :: tup) = (if decide (y = x) then 1 else 0) + occurrences x tup.
Proof.
  unfold occurrences. rewrite filter_cons.
  destruct (decide (y = x)); reflexivity.
Qed.

(** The counts after the loop, started from any counts. *)
Lemma count_elements_from (tup : list string) (counts : gmap string nat) (x : string) :
  foldl (fun counts el =>
           let counts := match counts !! el with
                         | None => <[el := 0]> counts
                         | Some _ => counts
                         end in
           <[el := default 0 (counts !! el) + 1]> counts)
        counts tup !! x =
  match counts !! x with
  | Some k => Some (k + occurrences x tup)
  | None => if decide (occurrences x tup = 0) then None else Some (occurrences x tup)
  end.
Proof.
  revert counts. induction tup as [|y tup IH]; intros counts.
  - cbn. destruct (counts !! x); [f_equal; lia | reflexivity].
  - cbn [foldl]. rewrite IH, occurrences_cons. clear IH.
    destruct (decide (y = x)) as [->|Hne].
    + destruct (counts !! x) as [k|] eqn:Hk.
      * rewrite lookup_insert_eq. rewrite Hk. cbn. f_equal. lia.
      * rewrite lookup_insert_eq, lookup_insert_eq. cbn.
        destruct (decide (1 + occurrences x tup = 0)); [lia|]. f_equal.
    + destruct (counts !! y) as [k|] eqn:Hk.
      * rewrite lookup_insert_ne by exact Hne. reflexivity.
      * rewrite lookup_insert_ne, lookup_insert_ne by exact Hne. reflexivity.
Qed.

Lemma count_elements_lookup tup x :
  count_elements tup !! x =
  if decide (occurrences x tup = 0) then None else Some (occurrences x tup).
Proof. unfold count_elements. now rewrite count_elements_from, lookup_empty. Qed.

Lemma occurrences_zero x tup : occurrences x tup = 0 <-> x ∉ tup.
Proof.
  induction tup as [|y tup IH]; [cbn; split; [intros _ H; inversion H | reflexivity]|].
  rewrite occurrences_cons, not_elem_of_cons.
  destruct (decide (y = x)) as [->|Hne].
  - split; [lia | intros [H _]; congruence].
  - rewrite <- IH. split; [intros H; split; [congruence | lia] | intros [_ H]; lia].
Qed.

Lemma NoDup_occurrences tup : NoDup tup <-> forall x, occurrences x tup <= 1.
Proof.
  induction tup as [|y tup IH].
  - split; [intros _ x; cbn; lia | constructor].
  - rewrite NoDup_cons, IH. split.
    + intros [Hy Hall] x. rewrite occurrences_cons.
      destruct (decide (y = x)) as [->|_]; [|apply Hall].
      apply occurrences_zero in Hy. lia.
    + intros Hall. split.
      * apply occurrences_zero. specialize (Hall y). rewrite occurrences_cons in Hall.
        destruct (decide (y = y)); [lia | congruence].
      * intros x. specialize (Hall x). rewrite occurrences_cons in Hall. lia.
Qed.

(** X1.  [has_duplicates] tells exactly whether some element occurs twice. *)
Theorem has_duplicates_iff_not_NoDup (tup : list string) :
  has_duplicates tup = true <-> ~ NoDup tup.
Proof.
  unfold has_duplicates. rewrite existsb_exists. split.
  - intros (count & Hin & _) Hnodup.
    apply list_elem_of_In, list_elem_of_filter in Hin as [Hgt Hin].
    apply list_elem_of_fmap in Hin as ([x c] & -> & Hin). cbn in Hgt.
    apply elem_of_map_to_list in Hin. rewrite count_elements_lookup in Hin.
    destruct (decide (occurrences x tup = 0)); [discriminate|].
    injection Hin as <-.
    apply NoDup_occurrences with (x := x) in Hnodup. lia.
  - intros Hdup.
    assert (Hsome : exists x, occurrences x tup > 1).
    { destruct (decide (Forall (fun x => occurrences x tup <= 1) tup)) as [Hall|Hnot].
      - exfalso. apply Hdup, NoDup_occurrences. intros x.
        destruct (decide (x ∈ tup)) as [Hin|Hout].
        + rewrite Forall_forall in Hall. now apply Hall.
        + apply occurrences_zero in Hout. lia.
      - apply not_Forall_Exists in Hnot; [|apply _].
        apply Exists_exists in Hnot as (x & _ & Hx). unfold compose in Hx. exists x. lia. }
    destruct Hsome as (x & Hx).
    exists (occurrences x tup). split.
    + apply list_elem_of_In, list_elem_of_filter. split; [exact Hx|].
      apply list_elem_of_fmap. exists (x, occurrences x tup). split; [reflexivity|].
      apply elem_of_map_to_list. rewrite count_elements_lookup.
      destruct (decide (occurrences x tup = 0)); [lia | reflexivity].
    + destruct (occurrences x tup); [lia | reflexivity].
Qed.

(** ** The order of the table *)

Lemma first_bearable_spec el config s :
  exists found n,
    first_bearable el config s = (Ok found, bearable_more n s) /\
    n <= length config /\
    match found with
    | Some name => first_match config el name
    | None => Forall (fun entry : string * hint => entry.2 el = false) config
    end.
Proof.
  revert s. induction config as [|[name data_type] config IH]; intros s.
  - exists None, 0. split; [destruct s as [t []]; reflexivity|]. split; [cbn; lia | constructor].
  - cbn [first_bearable].
    rewrite (bind_Ok_run _ _ _ _ _ (is_bearable_run el data_type s)).
    destruct (data_type el) eqn:Hel.
    + exists (Some name), 1. split; [reflexivity|]. split; [cbn; lia|].
      exists [], data_type, config. repeat split; [exact Hel | constructor].
    + destruct (IH (bearable_more 1 s)) as (found & n & Hrun & Hn & Hfound).
      exists found, (n + 1). rewrite Hrun, bearable_more_more.
      split; [reflexivity|]. split; [cbn; lia|].
      destruct found as [name'|].
      * destruct Hfound as (before & dt & after & -> & Hdt & Hbefore).
        exists ((name, data_type) :: before), dt, after.
        repeat split; [exact Hdt | now constructor].
      * now constructor.
Qed.

Lemma determine_types_spec data config s :
  exists r n,
    determine_types data config s = (r, bearable_more n s) /\
    n <= length data * length config /\
    match r with
    | Ok output => Forall2 (first_match config) data output
    | Raise e =>
        e = TypeError /\
        Exists (fun el => Forall (fun entry : string * hint => entry.2 el = false) config)
               data
    end.
Proof.
  revert s. induction data as [|el data IH]; intros s.
  - exists (Ok []), 0. split; [destruct s as [t []]; reflexivity|].
    split; [cbn; lia | constructor].
  - cbn [determine_types].
    destruct (first_bearable_spec el config s) as (found & n & Hrun & Hn & Hfound).
    rewrite (bind_Ok_run _ _ _ _ _ Hrun).
    destruct found as [name|].
    + destruct (IH (bearable_more n s)) as (r & m & Hrec & Hm & Hr).
      rewrite bearable_more_more in Hrec.
      destruct r as [output|e].
      * exists (Ok (name :: output)), (m + n).
        rewrite (bind_Ok_run _ _ _ _ _ Hrec).
        split; [reflexivity|]. split; [cbn; lia | now constructor].
      * exists (Raise e), (m + n).
        rewrite (bind_Raise_run _ _ _ _ _ Hrec).
        split; [reflexivity|]. split; [cbn; lia|].
        destruct Hr as [-> Hex]. split; [reflexivity | now apply Exists_cons_tl].
    + exists (Raise TypeError), n.
      split; [reflexivity|]. split; [cbn; lia|].
      split; [reflexivity | now apply Exists_cons_hd].
Qed.

Lemma first_match_accepted config el name :
  first_match config el name ->
  Exists (fun entry : string * hint => entry.2 el = true) config.
Proof.
  intros (before & dt & after & -> & Hdt & _).
  apply Exists_app. right. now apply Exists_cons_hd.
Qed.

(** X2.  [determine_types] gives every element the name of the first entry of
    the table, in the order of the table, whose hint accepts it, and raises a
    type error exactly when some element is accepted by no entry. *)
Theorem determine_types_first_match data config s :
  exists r s',
    determine_types data config s = (r, s') /\
    match r with
    | Ok output =>
        Forall2 (first_match config) data output /\
        Forall (fun el => Exists (fun entry : string * hint => entry.2 el = true) config)
               data
    | Raise e =>
        e = TypeError /\
        Exists (fun el => Forall (fun entry : string * hint => entry.2 el = false) config)
               data
    end.
Proof.
  destruct (determine_types_spec data config s) as (r & n & Hrun & _ & Hr).
  exists r, (bearable_more n s). split; [exact Hrun|].
  destruct r as [output|e]; [|exact Hr]. split; [exact Hr|].
  clear Hrun. induction Hr as [|el name data output Hfirst _ IH]; constructor.
  - now apply first_match_accepted in Hfirst.
  - exact IH.
Qed.

(** X3.  Whatever its outcome, [determine_types] changes nothing but the
    count of predicate calls, and makes at most one call per element and
    entry of the table. *)
Theorem determine_types_calls data config s r s' :
  determine_types data config s = (r, s') ->
  self s' = self s /\
  trace (world s') = trace (world s) /\
  bearable_calls (world s) <= bearable_calls (world s') /\
  bearable_calls (world s') <= bearable_calls (world s) + length data * length config.
Proof.
  intros Hrun.
  destruct (determine_types_spec data config s) as (r0 & n & Hrun0 & Hn & _).
  rewrite Hrun in Hrun0. injection Hrun0 as _ ->. cbn. repeat split; lia.
Qed.

Lemma determine_types_calls_witness :
  exists s r s',
    sample_session (sample_args "semantic" 5 1 100 1000 0.05) = Some s /\
    determine_types [Tensor int64 [2; 8]; Tensor float32 [2; 640]; PyObject "caption"]
      two_entry_config s = (r, s') /\
    self s' = self s /\
    trace (world s') = trace (world s) /\
    bearable_calls (world s) <= bearable_calls (world s') /\
    bearable_calls (world s') <=
      bearable_calls (world s) +
      length [Tensor int64 [2; 8]; Tensor float32 [2; 640]; PyObject "caption"] *
      length two_entry_config.
Proof.
  eexists _, _, _. split; [vm_compute; reflexivity|].
  split; [vm_compute; reflexivity|].
  apply determine_types_calls with (r := Raise TypeError).
  vm_compute; reflexivity.
Defined.

(** ** The keyword arguments *)

Lemma dict_of_zip_from (names : list string) (data : list value) (d : gmap string value) key :
  foldl (fun d item => <[item.1 := item.2]> d) d (zip names data) !! key =
  match list_find (fun item : string * value => item.1 = key) (reverse (zip names data)) with
  | Some (_, item) => Some item.2
  | None => d !! key
  end.
Proof.
  remember (zip names data) as items eqn:Hitems. clear Hitems names data.
  revert d. induction items as [|[k v] items IH]; intros d; [reflexivity|].
  cbn [foldl]. rewrite IH, reverse_cons. cbn [fst snd].
  destruct (list_find _ (reverse items)) as [[i item]|] eqn:Hfind.
  - erewrite list_find_app_l by exact Hfind. reflexivity.
  - rewrite list_find_app_r by exact Hfind. cbn.
    destruct (decide (k = key)) as [->|Hne]; cbn.
    + now rewrite lookup_insert_eq.
    + now rewrite lookup_insert_ne.
Qed.

(** With names that do not repeat, the argument under the i-th name is the
    i-th element of the batch, if the batch has one. *)
Lemma dict_of_zip_lookup names data i name :
  NoDup names -> names !! i = Some name ->
  dict_of_zip names data !! name = data !! i.
Proof.
  unfold dict_of_zip.
  revert data i. induction names as [|n names IH]; intros data i Hnodup Hi; [discriminate|].
  apply NoDup_cons in Hnodup as [Hn Hnodup].
  destruct data as [|v data].
  - cbn. rewrite lookup_empty. now destruct i.
  - cbn [zip zip_with foldl fst snd].
    rewrite dict_of_zip_from.
    destruct i as [|i]; cbn in Hi.
    + injection Hi as ->.
      destruct (list_find _ (reverse (zip names data))) as [[j [k v']]|] eqn:Hfind.
      * exfalso. apply list_find_Some in Hfind as (Hj & Hk & _). cbn in Hk. subst k.
        apply list_elem_of_lookup_2, elem_of_reverse, elem_of_zip_l in Hj.
        contradiction.
      * cbn. now rewrite lookup_insert_eq.
    + assert (Hne : n <> name).
      { intros ->. apply Hn. eapply list_elem_of_lookup_2, Hi. }
      specialize (IH data i Hnodup Hi). rewrite dict_of_zip_from in IH.
      destruct (list_find _ (reverse (zip names data))) as [[j [k v']]|].
      * exact IH.
      * rewrite lookup_insert_ne by exact Hne. rewrite lookup_empty in IH |- *. exact IH.
Qed.

Lemma dict_of_zip_not_named names data key :
  key ∉ names -> dict_of_zip names data !! key = None.
Proof.
  intros Hout. unfold dict_of_zip. rewrite dict_of_zip_from.
  destruct (list_find _ (reverse (zip names data))) as [[j [k v]]|] eqn:Hfind.
  - exfalso. apply list_find_Some in Hfind as (Hj & Hk & _). cbn in Hk. subst k.
    apply list_elem_of_lookup_2, elem_of_reverse, elem_of_zip_l in Hj. contradiction.
  - apply lookup_empty.
Qed.

(** X4.  With a cached mapping whose names do not repeat, a later batch is
    routed by position without any check of its length or of its elements:
    the argument under the i-th name is the i-th element of the batch, a name
    beyond the end of the batch gets no argument, and the elements beyond the
    end of the mapping are dropped. *)
Theorem cached_mapping_routes_by_position s fields data :
  ds_fields (self s) = Some fields ->
  NoDup fields ->
  exists kwargs,
    data_tuple_to_kwargs data s = (Ok kwargs, s) /\
    (forall i name, fields !! i = Some name -> kwargs !! name = data !! i) /\
    (forall key, key ∉ fields -> kwargs !! key = None).
Proof.
  intros Hc Hnodup. exists (dict_of_zip fields data).
  split; [now apply data_tuple_to_kwargs_cached|]. split.
  - intros i name Hi. now apply dict_of_zip_lookup.
  - intros key Hkey. now apply dict_of_zip_not_named.
Qed.

Lemma cached_mapping_routes_by_position_witness :
  exists s,
    routed_session = Some s /\
    ds_fields (self s) = Some ["input_audio"] /\
    NoDup ["input_audio"] /\
    exists kwargs,
      data_tuple_to_kwargs [PyObject "caption"; Tensor float32 [2; 640]] s = (Ok kwargs, s) /\
      (forall i name, ["input_audio"] !! i = Some name ->
                      kwargs !! name = [PyObject "caption"; Tensor float32 [2; 640]] !! i) /\
      (forall key, key ∉ ["input_audio"] -> kwargs !! key = None).
Proof.
  eexists. split; [vm_compute; reflexivity|]. split; [reflexivity|].
  split; [apply NoDup_singleton|].
  apply cached_mapping_routes_by_position; [reflexivity | apply NoDup_singleton].
Defined.

(** The arguments built from a name repeated over a whole batch: the last
    element, under that name. *)
Lemma dict_of_zip_replicate name data x :
  last data = Some x ->
  dict_of_zip (replicate (length data) name) data = {[name := x]}.
Proof.
  intros Hlast. apply map_eq. intros key. unfold dict_of_zip.
  rewrite dict_of_zip_from.
  destruct data as [|v data _] using rev_ind; [discriminate|].
  rewrite last_snoc in Hlast. injection Hlast as ->.
  rewrite length_app, Nat.add_comm. cbn [length Nat.add].
  rewrite replicate_S_end, zip_with_app by now rewrite length_replicate.
  rewrite reverse_app. cbn.
  destruct (decide (name = key)) as [->|Hne]; cbn.
  - now rewrite lookup_singleton_eq.
  - rewrite lookup_singleton_ne by exact Hne.
    destruct (list_find _ (reverse (zip (replicate (length data) name) data)))
      as [[j [k v]]|] eqn:Hfind; [|reflexivity].
    exfalso. apply list_find_Some in Hfind as (Hj & Hk & _). cbn in Hk. subst k.
    apply list_elem_of_lookup_2, elem_of_reverse, elem_of_zip_l,
      elem_of_replicate in Hj as [Heq _]. congruence.
Qed.

(** X5.  The assertion on duplicate names comes after the mapping has been
    stored: the failed call leaves the duplicated names cached, and the next
    call on a batch of that length, without inspecting it, succeeds with one
    argument, its last element. *)
Theorem duplicate_names_stay_cached s data :
  ds_fields (self s) = None ->
  2 <= length data ->
  Forall classifiable data ->
  exists s1,
    data_tuple_to_kwargs data s = (Raise AssertionError, s1) /\
    ds_fields (self s1) = Some (replicate (length data) "input_audio") /\
    forall data' x,
      length data' = length data -> last data' = Some x ->
      data_tuple_to_kwargs data' s1 = (Ok {["input_audio" := x]}, s1).
Proof.
  intros Hc Hlen Hall.
  destruct (determine_types_fixed data s) as (r & n & Hrun & Hok & _).
  rewrite (Hok Hall) in Hrun.
  rewrite (data_tuple_to_kwargs_infer_ok _ _ _ _ Hc Hrun), has_duplicates_replicate.
  rewrite bool_decide_eq_true_2 by exact Hlen.
  eexists. split; [reflexivity|]. split; [reflexivity|].
  intros data' x Hlen' Hlast.
  erewrite data_tuple_to_kwargs_cached by reflexivity.
  now rewrite <- Hlen', (dict_of_zip_replicate _ _ _ Hlast).
Qed.

Lemma duplicate_names_stay_cached_witness :
  exists s,
    sample_session (sample_args "semantic" 5 1 100 1000 0.05) = Some s /\
    ds_fields (self s) = None /\
    2 <= length [Tensor float32 [2; 640]; Tensor float32 [2; 960]] /\
    Forall classifiable [Tensor float32 [2; 640]; Tensor float32 [2; 960]] /\
    exists s1,
      data_tuple_to_kwargs [Tensor float32 [2; 640]; Tensor float32 [2; 960]] s
        = (Raise AssertionError, s1) /\
      ds_fields (self s1) =
        Some (replicate (length [Tensor float32 [2; 640]; Tensor float32 [2; 960]])
                "input_audio") /\
      forall data' x,
        length data' = length [Tensor float32 [2; 640]; Tensor float32 [2; 960]] ->
        last data' = Some x ->
        data_tuple_to_kwargs data' s1 = (Ok {["input_audio" := x]}, s1).
Proof.
  eexists. split; [vm_compute; reflexivity|]. split; [reflexivity|].
  split; [simpl; lia|]. split; [repeat constructor|].
  apply duplicate_names_stay_cached; [reflexivity | simpl; lia | repeat constructor].
Defined.

(** ** The log accumulator *)

Lemma accum_log_other log new_logs key :
  key ∉ new_logs.*1 -> accum_log log new_logs !! key = log !! key.
Proof.
  unfold accum_log. revert log.
  induction new_logs as [|[k v] new_logs IH]; intros log Hkey; [reflexivity|].
  cbn in Hkey. apply not_elem_of_cons in Hkey as [Hne Hkey].
  cbn [foldl fst snd]. rewrite IH by exact Hkey.
  now rewrite lookup_insert_ne.
Qed.

(** X6.  [accum_log] adds each new value to the value the log holds under its
    key, taking [0.] for a key the log does not hold yet, and leaves the other
    keys of the log as they are. *)
Theorem accum_log_lookup log new_logs :
  NoDup new_logs.*1 ->
  (forall key v, (key, v) ∈ new_logs ->
     accum_log log new_logs !! key = Some (default 0 (log !! key) + v)%float) /\
  (forall key, key ∉ new_logs.*1 -> accum_log log new_logs !! key = log !! key).
Proof.
  intros Hnodup. split; [|intros key; apply accum_log_other].
  revert log. induction new_logs as [|[k v] new_logs IH]; intros log key v' Hin.
  - inversion Hin.
  - cbn in Hnodup. apply NoDup_cons in Hnodup as [Hk Hnodup].
    apply elem_of_cons in Hin as [[= -> ->]|Hin].
    + change (accum_log log ((k, v) :: new_logs))
        with (accum_log (<[k := (default 0 (log !! k) + v)%float]> log) new_logs).
      rewrite accum_log_other by exact Hk. now rewrite lookup_insert_eq.
    + change (accum_log log ((k, v) :: new_logs))
        with (accum_log (<[k := (default 0 (log !! k) + v)%float]> log) new_logs).
      rewrite (IH Hnodup _ _ _ Hin).
      assert (Hne : k <> key).
      { intros ->. apply Hk. apply list_elem_of_fmap. now exists (key, v'). }
      now rewrite lookup_insert_ne.
Qed.

Lemma accum_log_lookup_witness :
  NoDup [("loss", 0.5%float); ("accuracy", 2%float)].*1 /\
  (forall key v, (key, v) ∈ [("loss", 0.5%float); ("accuracy", 2%float)] ->
     accum_log {["loss" := 1%float]} [("loss", 0.5%float); ("accuracy", 2%float)] !! key
     = Some (default 0 (({["loss" := 1%float]} : gmap string float) !! key) + v)%float) /\
  (forall key, key ∉ [("loss", 0.5%float); ("accuracy", 2%float)].*1 ->
     accum_log {["loss" := 1%float]} [("loss", 0.5%float); ("accuracy", 2%float)] !! key
     = ({["loss" := 1%float]} : gmap string float) !! key).
Proof.
  assert (H : NoDup [("loss", 0.5%float); ("accuracy", 2%float)].*1).
  { apply (bool_decide_unpack _). vm_compute. exact I. }
  split; [exact H|].
  apply (accum_log_lookup {["loss" := 1%float]} _ H).
Defined.

(** ** What a step consumes and in which order it updates *)

Lemma accum_loop_effects E n logs s logs' s' :
  accum_loop E n logs s = (Ok logs', s') ->
  dl_iter (self s') = dl_iter (self s) + n /\
  optimizer_events (trace (world s')) =
    optimizer_events (trace (world s)) ++
    ((fun loss => EvBackward loss (grad_accum_every (self s))) <$>
     (forward_loss E <$> seq (forward_calls (world s)) n)).
Proof.
  revert logs s. induction n as [|n IH]; intros logs s Hrun.
  - injection Hrun as <- <-. split; [lia | now rewrite app_nil_r].
  - cbn [accum_loop] in Hrun. run_step_in Hrun.
    match type of Hrun with
    | context [data_tuple_to_kwargs ?d ?s0] =>
        destruct (data_tuple_to_kwargs d s0) as [[kwargs|e] s1] eqn:Hroute;
        [|discriminate];
        destruct (data_tuple_to_kwargs_frame _ _ _ _ Hroute)
          as ((Hcfg & _ & _) & Hfwd & Htr & Hdl & _)
    end.
    cbn in Hcfg, Hfwd, Htr, Hdl. rewrite config_set_dl_iter in Hcfg.
    destruct (config_fields _ _ Hcfg) as (_ & Hevery & _).
    apply IH in Hrun as (Hdl' & Hopt). cbn in Hdl', Hopt.
    split; [lia|]. unfold optimizer_events in *.
    rewrite Hopt, Htr, !List.filter_app, Hfwd, Hevery. cbn.
    rewrite ?app_nil_r, <- ?app_assoc. reflexivity.
Qed.

Lemma sample_results_effects E st s s' :
  sample_results E st s = (Ok tt, s') ->
  dl_iter (self s') = dl_iter (self s) /\
  valid_dl_iter (self s') =
    valid_dl_iter (self s) +
    (if is_main_process E && (st mod save_results_every (self s) =? 0)%Z then 1 else 0) /\
  forward_calls (world s') =
    forward_calls (world s) +
    (if is_main_process E && (st mod save_results_every (self s) =? 0)%Z then 1 else 0) /\
  optimizer_events (trace (world s')) = optimizer_events (trace (world s)).
Proof.
  unfold sample_results. run_step. intros Hrun.
  destruct (is_main_process E); cbn [andb].
  - destruct (save_results_every (self s) =? 0)%Z; [discriminate|].
    destruct (st mod save_results_every (self s) =? 0)%Z.
    + match type of Hrun with
      | context [data_tuple_to_kwargs ?d ?s0] =>
          destruct (data_tuple_to_kwargs d s0) as [[kwargs|e] s1] eqn:Hroute;
          [|discriminate];
          destruct (data_tuple_to_kwargs_frame _ _ _ _ Hroute)
            as (_ & Hfwd & Htr & Hdl & Hvdl)
      end.
      cbn in Hfwd, Htr, Hdl, Hvdl. injection Hrun as <-. cbn.
      unfold optimizer_events.
      rewrite !List.filter_app, Htr, List.filter_app. cbn.
      rewrite !app_nil_r. repeat split; lia.
    + injection Hrun as <-. repeat split; lia.
  - injection Hrun as <-. repeat split; lia.
Qed.

Lemma save_model_effects E st s s' :
  save_model E st s = (Ok tt, s') ->
  self s' = self s /\
  forward_calls (world s') = forward_calls (world s) /\
  optimizer_events (trace (world s')) = optimizer_events (trace (world s)).
Proof.
  unfold save_model. run_step. intros Hrun.
  destruct (is_main_process E).
  - destruct (save_model_every (self s) =? 0)%Z; [discriminate|].
    destruct (st mod save_model_every (self s) =? 0)%Z; injection Hrun as <-;
      repeat split.
    cbn. unfold optimizer_events. rewrite !List.filter_app. cbn. now rewrite !app_nil_r.
  - injection Hrun as <-. repeat split.
Qed.

Lemma train_step_effects E s logs s' :
  train_step E s = (Ok logs, s') ->
  dl_iter (self s') = dl_iter (self s) + Z.to_nat (grad_accum_every (self s)) /\
  valid_dl_iter (self s') =
    valid_dl_iter (self s) +
    (if is_main_process E && (steps (self s) mod save_results_every (self s) =? 0)%Z
     then 1 else 0) /\
  forward_calls (world s') =
    forward_calls (world s) + Z.to_nat (grad_accum_every (self s)) +
    (if is_main_process E && (steps (self s) mod save_results_every (self s) =? 0)%Z
     then 1 else 0) /\
  optimizer_events (trace (world s')) =
    optimizer_events (trace (world s)) ++
    ((fun loss => EvBackward loss (grad_accum_every (self s))) <$> micro_batch_losses E s) ++
    match max_grad_norm (self s) with
    | Some max_norm => [EvClipGradNorm max_norm]
    | None => []
    end ++
    [EvOptimStep; EvZeroGrad].
Proof.
  unfold train_step. run_step. intros Hrun.
  cbn [self on_world] in Hrun.
  destruct (accum_loop E _ ∅ _) as [[logs1|e] s1] eqn:Hloop; [|discriminate].
  pose proof (accum_loop_effects _ _ _ _ _ _ Hloop) as (Hdl1 & Hopt1).
  apply accum_loop_inv in Hloop as ((Hcfg1 & _ & _) & Hvdl1 & Hlogs).
  destruct (Hlogs _ eq_refl) as (Hfwd1 & _). clear Hlogs.
  cbn in Hcfg1, Hdl1, Hopt1, Hvdl1, Hfwd1. unfold optimizer_events in *.
  rewrite List.filter_app in Hopt1. cbn in Hopt1. rewrite app_nil_r in Hopt1.
  destruct (config_fields _ _ Hcfg1) as (Hsteps & Hevery & Hsre & _ & _ & Hnorm & _).
  destruct (logs1 !! "loss") as [loss|];
    [|destruct (max_grad_norm (self s1)); discriminate].
  rewrite <- Hnorm.
  destruct (max_grad_norm (self s1)) as [norm|].
  all: destruct (sample_results E _ _) as [[[]|e] s3] eqn:Hsample; [|discriminate].
  all: apply sample_results_effects in Hsample as (Hdl3 & Hvdl3 & Hfwd3 & Hopt3).
  all: destruct (save_model E _ _) as [[[]|e] s4] eqn:Hsave; [|discriminate].
  all: apply save_model_effects in Hsave as (Hself4 & Hfwd4 & Hopt4).
  all: injection Hrun as <- <-.
  all: cbn [self world on_self on_world set_steps dl_iter valid_dl_iter
            save_results_every trace emit_w forward_calls] in *.
  all: unfold optimizer_events in *.
  all: rewrite ?List.filter_app in Hopt3; cbn in Hopt3;
    rewrite ?app_nil_r in Hopt3.
  all: rewrite Hself4, Hsre in *.
  all: unfold micro_batch_losses.
  all: repeat split; try lia.
  all: rewrite Hopt4, Hopt3, Hopt1, <- ?app_assoc; reflexivity.
Qed.



(** X8.  A step that returns has made one backward pass per micro-batch, on
    the loss of that micro-batch and in their order, then clipped the
    gradients if [max_grad_norm] is set, then made exactly one optimizer step
    and cleared the gradients once; validation and snapshot do none of
    these. *)
Theorem step_updates_once E s logs s' :
  train_step E s = (Ok logs, s') ->
  optimizer_events (trace (world s')) =
    optimizer_events (trace (world s)) ++
    ((fun loss => EvBackward loss (grad_accum_every (self s))) <$> micro_batch_losses E s) ++
    match max_grad_norm (self s) with
    | Some max_norm => [EvClipGradNorm max_norm]
    | None => []
    end ++
    [EvOptimStep; EvZeroGrad].
Proof.
  intros Hstep. now apply train_step_effects in Hstep as (_ & _ & _ & H).
Qed.

Lemma step_updates_once_witness :
  exists s logs s',
    sample_session (sample_args "fine" 5 2 1 1 0.05) = Some s /\
    train_step unit_loss_env s = (Ok logs, s') /\
    optimizer_events (trace (world s')) =
      optimizer_events (trace (world s)) ++
      ((fun loss => EvBackward loss (grad_accum_every (self s))) <$>
       micro_batch_losses unit_loss_env s) ++
      match max_grad_norm (self s) with
      | Some max_norm => [EvClipGradNorm max_norm]
      | None => []
      end ++
      [EvOptimStep; EvZeroGrad].
Proof.
  eexists _, _, _. split; [vm_compute; reflexivity|].
  split; [vm_compute; reflexivity|].
  eapply (step_updates_once unit_loss_env). vm_compute; reflexivity.
Defined.

(** ** Steps that fail *)

(** X9.  With [grad_accum_every] zero or negative no micro-batch is run, and
    the step fails with a key error on ['loss'] when it comes to logging: by
    then it has made the optimizer step, on no gradient, and it leaves the
    trainer object, with its counter, as it was. *)
Theorem no_micro_batch_key_error E s :
  (grad_accum_every (self s) <= 0)%Z ->
  exists s',
    train_step E s = (Raise (KeyError "loss"), s') /\
    self s' = self s /\
    forward_calls (world s') = forward_calls (world s) /\
    trace (world s') =
      trace (world s) ++ [EvTransformerTrain] ++
      match max_grad_norm (self s) with
      | Some max_norm => [EvClipGradNorm max_norm]
      | None => []
      end ++ [EvOptimStep; EvZeroGrad].
Proof.
  intros Hevery. unfold train_step. run_step. cbn [self on_world].
  assert (Z.to_nat (grad_accum_every (self s)) = 0) as -> by lia.
  cbn [accum_loop]. run_step. rewrite lookup_empty. cbn [self on_world].
  destruct (max_grad_norm (self s)); eexists; (split; [reflexivity|]);
    cbn; rewrite <- ?app_assoc; auto.
Qed.

Lemma no_micro_batch_key_error_witness :
  exists s,
    sample_session (sample_args "semantic" 5 0 100 1000 0.05) = Some s /\
    (grad_accum_every (self s) <= 0)%Z /\
    exists s',
      train_step unit_loss_env s = (Raise (KeyError "loss"), s') /\
      self s' = self s /\
      forward_calls (world s') = forward_calls (world s) /\
      trace (world s') =
        trace (world s) ++ [EvTransformerTrain] ++
        match max_grad_norm (self s) with
        | Some max_norm => [EvClipGradNorm max_norm]
        | None => []
        end ++ [EvOptimStep; EvZeroGrad].
Proof.
  eexists. split; [vm_compute; reflexivity|]. split; [simpl; lia|].
  apply (no_micro_batch_key_error unit_loss_env). simpl; lia.
Defined.

(** A step, cut after the optimizer update and after the logging of the
    training loss. *)
Lemma train_step_unfold E s :
  train_step E s =
  match accum_loop E (Z.to_nat (grad_accum_every (self s))) ∅
          (on_world (emit_w EvTransformerTrain) s) with
  | (Raise e, s1) => (Raise e, s1)
  | (Ok logs, s1) =>
      let s2 :=
        on_world (emit_w EvZeroGrad)
          (on_world (emit_w EvOptimStep)
             match max_grad_norm (self s1) with
             | Some max_norm => on_world (emit_w (EvClipGradNorm max_norm)) s1
             | None => s1
             end) in
      match logs !! "loss" with
      | None => (Raise (KeyError "loss"), s2)
      | Some loss =>
          (sample_results E (steps (self s));;
           save_model E (steps (self s));;
           modify (on_self (fun t => set_steps (f32_round (steps t + 1)) t));;
           ret logs)
            (on_world (emit_w (EvLog "train_loss" loss (steps (self s))))
               (on_world (emit_w (EvPrint (MsgTrainLoss (steps (self s)) loss))) s2))
      end
  end.
Proof.
  unfold train_step. run_step. cbn [self on_world].
  destruct (accum_loop E _ ∅ _) as [[logs1|e] s1]; [|reflexivity].
  destruct (max_grad_norm (self s1)), (logs1 !! "loss"); reflexivity.
Qed.

(** X10.  On the primary process a period of zero makes the step fail with a
    zero-division error at the test of that period.  By then the update has
    been made in full, one backward pass per micro-batch, the clipping if it
    is set, one optimizer step and one clearing of the gradients, and the
    training loss of the step has been logged; no snapshot is written and the
    counter is not advanced. *)
Theorem zero_period_zero_division E s :
  is_main_process E = true ->
  (forall k, routable (train_batches E k)) ->
  (forall k, routable (valid_batches E k)) ->
  (1 <= grad_accum_every (self s))%Z ->
  save_results_every (self s) = 0%Z \/ save_model_every (self s) = 0%Z ->
  exists s',
    train_step E s = (Raise ZeroDivisionError, s') /\
    steps (self s') = steps (self s) /\
    optimizer_events (trace (world s')) =
      optimizer_events (trace (world s)) ++
      ((fun loss => EvBackward loss (grad_accum_every (self s))) <$>
       micro_batch_losses E s) ++
      match max_grad_norm (self s) with
      | Some max_norm => [EvClipGradNorm max_norm]
      | None => []
      end ++
      [EvOptimStep; EvZeroGrad] /\
    logged_steps "train_loss" (trace (world s')) =
      logged_steps "train_loss" (trace (world s)) ++ [steps (self s)] /\
    checkpoints (trace (world s')) = checkpoints (trace (world s)).
Proof.
  intros Hmain Htrain Hvalid Hevery Hzero.
  rewrite train_step_unfold.
  destruct (accum_loop_ok E (Z.to_nat (grad_accum_every (self s))) ∅
              (on_world (emit_w EvTransformerTrain) s) Htrain)
    as (logs1 & s1 & Hloop).
  rewrite Hloop.
  pose proof (accum_loop_effects _ _ _ _ _ _ Hloop) as (_ & Hopt1).
  apply accum_loop_inv in Hloop as ((Hcfg1 & Hobs1 & _) & _ & Hlogs).
  destruct (Hlogs _ eq_refl) as (_ & Hlogs1). clear Hlogs.
  destruct (config_fields _ _ Hcfg1) as (Hsteps & _ & Hsre & Hsme & _ & Hnorm & _).
  cbn in Hsteps, Hsre, Hsme, Hlogs1, Hobs1, Hopt1, Hnorm.
  unfold optimizer_events in Hopt1.
  rewrite List.filter_app in Hopt1. cbn in Hopt1. rewrite app_nil_r in Hopt1.
  fold (optimizer_events (trace (world s))) in Hopt1.
  fold (optimizer_events (trace (world s1))) in Hopt1.
  fold (micro_batch_losses E s) in Hopt1.
  rewrite observe_app in Hobs1. cbn in Hobs1.
  assert (Hloss : is_Some (logs1 !! "loss")).
  { rewrite Hlogs1.
    destruct (Z.to_nat (grad_accum_every (self s))) as [|n] eqn:Hn; [lia|].
    rewrite accum_losses_loss by discriminate. eauto. }
  destruct Hloss as (loss & ->). cbn zeta.
  match goal with
  | |- context [_ ?s0 = (Raise ZeroDivisionError, _)] => set (s2 := s0)
  end.
  assert (Hs2 : config (self s2) = config (self s1) /\
                observe (trace (world s2)) =
                  observe (trace (world s)) ++
                  [EvTransformerTrain; EvLog "train_loss" loss (steps (self s))]).
  { subst s2. destruct (max_grad_norm (self s1)); cbn; rewrite !observe_app; cbn;
      rewrite ?app_nil_r, Hobs1, <- app_assoc; split; reflexivity. }
  assert (Hopt2 : optimizer_events (trace (world s2)) =
                    optimizer_events (trace (world s)) ++
                    ((fun loss => EvBackward loss (grad_accum_every (self s))) <$>
                     micro_batch_losses E s) ++
                    match max_grad_norm (self s) with
                    | Some max_norm => [EvClipGradNorm max_norm]
                    | None => []
                    end ++
                    [EvOptimStep; EvZeroGrad]).
  { subst s2. rewrite <- Hnorm. unfold optimizer_events in *.
    destruct (max_grad_norm (self s1)); cbn; rewrite !List.filter_app; cbn;
      rewrite ?app_nil_r, Hopt1, <- ?app_assoc; reflexivity. }
  destruct Hs2 as (Hcfg2 & Hobs2). clearbody s2.
  destruct (config_fields _ _ Hcfg2) as (Hsteps2 & _ & Hsre2 & Hsme2 & _).
  assert (Hread : forall s3, observe (trace (world s3)) = observe (trace (world s2)) ->
            logged_steps "train_loss" (trace (world s3)) =
              logged_steps "train_loss" (trace (world s)) ++ [steps (self s)] /\
            checkpoints (trace (world s3)) = checkpoints (trace (world s))).
  { intros s3 Hobs3. split.
    - rewrite <- (logged_steps_observe _ (trace (world s3))), Hobs3, Hobs2,
        logged_steps_app, logged_steps_observe. reflexivity.
    - rewrite <- (checkpoints_observe (trace (world s3))), Hobs3, Hobs2,
        checkpoints_app, checkpoints_observe. cbn. apply app_nil_r. }
  destruct (Z.eq_dec (save_results_every (self s)) 0%Z) as [Hsre0|Hsre0].
  - exists s2. split.
    + apply bind_Raise_run.
      unfold sample_results. run_step. rewrite Hmain, Hsre2, Hsre, Hsre0. reflexivity.
    + split; [congruence|]. split; [exact Hopt2|]. now apply Hread.
  - destruct Hzero as [Hzero|Hsme0]; [contradiction|].
    destruct (sample_results_ok E (steps (self s)) s2 Hvalid) as (s3 & Hsample).
    { intros _. congruence. }
    rewrite (bind_Ok_run _ _ _ _ _ Hsample).
    pose proof (sample_results_effects _ _ _ _ Hsample) as (_ & _ & _ & Hopt3).
    apply sample_results_inv in Hsample as (Hcfg3 & _ & Hobs3).
    specialize (Hobs3 eq_refl).
    destruct (config_fields _ _ Hcfg3) as (Hsteps3 & _ & _ & Hsme3 & _).
    exists s3. split.
    + apply bind_Raise_run.
      unfold save_model. run_step. rewrite Hmain, Hsme3, Hsme2, Hsme, Hsme0. reflexivity.
    + split; [congruence|]. split; [now rewrite Hopt3|].
      rewrite <- (logged_steps_observe _ (trace (world s3))),
        <- (checkpoints_observe (trace (world s3))), Hobs3, Hobs2.
      rewrite !logged_steps_app, !checkpoints_app, logged_steps_observe,
        checkpoints_observe.
      destruct (is_main_process E && _); cbn; now rewrite ?app_nil_r.
Qed.

Lemma zero_period_zero_division_witness :
  exists s,
    sample_session (sample_args "semantic" 5 2 3 0 0.05) = Some s /\
    is_main_process unit_loss_env = true /\
    (forall k, routable (train_batches unit_loss_env k)) /\
    (forall k, routable (valid_batches unit_loss_env k)) /\
    (1 <= grad_accum_every (self s))%Z /\
    (save_results_every (self s) = 0%Z \/ save_model_every (self s) = 0%Z) /\
    exists s',
      train_step unit_loss_env s = (Raise ZeroDivisionError, s') /\
      steps (self s') = steps (self s) /\
      optimizer_events (trace (world s')) =
        optimizer_events (trace (world s)) ++
        ((fun loss => EvBackward loss (grad_accum_every (self s))) <$>
         micro_batch_losses unit_loss_env s) ++
        match max_grad_norm (self s) with
        | Some max_norm => [EvClipGradNorm max_norm]
        | None => []
        end ++
        [EvOptimStep; EvZeroGrad] /\
      logged_steps "train_loss" (trace (world s')) =
        logged_steps "train_loss" (trace (world s)) ++ [steps (self s)] /\
      checkpoints (trace (world s')) = checkpoints (trace (world s)).
Proof.
  assert (Hroutable : forall k : nat, routable audio_batch)
    by (intros k; split; [simpl; lia | repeat constructor]).
  eexists. split; [vm_compute; reflexivity|]. split; [reflexivity|].
  split; [exact Hroutable|]. split; [exact Hroutable|].
  split; [simpl; lia|]. split; [right; reflexivity|].
  apply (zero_period_zero_division unit_loss_env);
    [reflexivity | exact Hroutable | exact Hroutable | simpl; lia | right; reflexivity].
Defined.

(** ** Processes other than the primary one *)

(** X11.  On a process that is not the primary one a step never draws a
    validation batch, logs no validation loss and writes no snapshot,
    whatever the two periods are, zero included; it still logs its training
    loss. *)
Theorem secondary_process_only_trains E s logs s' :
  is_main_process E = false ->
  train_step E s = (Ok logs, s') ->
  valid_dl_iter (self s') = valid_dl_iter (self s) /\
  checkpoints (trace (world s')) = checkpoints (trace (world s)) /\
  logged_steps "valid_loss" (trace (world s')) =
    logged_steps "valid_loss" (trace (world s)) /\
  logged_steps "train_loss" (trace (world s')) =
    logged_steps "train_loss" (trace (world s)) ++ [steps (self s)].
Proof.
  intros Hmain Hstep.
  pose proof (train_step_effects _ _ _ _ Hstep) as (_ & Hvdl & _).
  apply train_step_inv in Hstep as (_ & _ & _ & _ & Hobs).
  rewrite Hmain in Hvdl. cbn in Hvdl.
  unfold step_observations in Hobs. rewrite Hmain in Hobs. cbn in Hobs.
  split; [lia|].
  rewrite <- (checkpoints_observe (trace (world s'))),
    <- (logged_steps_observe _ (trace (world s'))),
    <- (logged_steps_observe "train_loss" (trace (world s'))), Hobs.
  rewrite checkpoints_app, !logged_steps_app, checkpoints_observe, !logged_steps_observe.
  cbn. now rewrite !app_nil_r.
Qed.

Lemma secondary_process_only_trains_witness :
  exists s logs s',
    session_in secondary_env (sample_args "semantic" 5 2 0 0 0.05) = Some s /\
    is_main_process secondary_env = false /\
    train_step secondary_env s = (Ok logs, s') /\
    valid_dl_iter (self s') = valid_dl_iter (self s) /\
    checkpoints (trace (world s')) = checkpoints (trace (world s)) /\
    logged_steps "valid_loss" (trace (world s')) =
      logged_steps "valid_loss" (trace (world s)) /\
    logged_steps "train_loss" (trace (world s')) =
      logged_steps "train_loss" (trace (world s)) ++ [steps (self s)].
Proof.
  eexists _, _, _. split; [vm_compute; reflexivity|]. split; [reflexivity|].
  split; [vm_compute; reflexivity|].
  eapply (secondary_process_only_trains secondary_env);
    [reflexivity | vm_compute; reflexivity].
Defined.

(** ** The loop, in general *)

Lemma train_keeps_bound E fuel s s' :
  train E fuel s = Some (Ok tt, s') ->
  num_train_steps (self s') = num_train_steps (self s).
Proof.
  revert s. induction fuel as [|fuel IH]; intros s Hrun; cbn [train] in Hrun.
  - destruct (_ <? _)%Z; [discriminate|]. now injection Hrun as <-.
  - destruct (_ <? _)%Z; [|now injection Hrun as <-].
    destruct (train_step E s) as [[logs|e] s1] eqn:Hstep; [|discriminate].
    apply train_step_inv in Hstep as (_ & _ & Hcfg & _).
    destruct (config_fields _ _ Hcfg) as (_ & _ & _ & _ & _ & _ & Hnum & _).
    apply IH in Hrun. cbn in Hrun, Hnum. congruence.
Qed.

(** X12.  From a session whose counter is at most [num_train_steps], both
    below [2^24], on batches the routing accepts: [train] makes exactly the
    steps that are left and stops with the counter at [num_train_steps];
    on the primary process it writes a snapshot at each of these steps that
    is a multiple of [save_model_every] and logs a validation loss at each
    that is a multiple of [save_results_every], and no other; called again,
    it makes no step. *)
Theorem train_makes_remaining_steps E s fuel :
  (forall k, routable (train_batches E k)) ->
  (forall k, routable (valid_batches E k)) ->
  (1 <= grad_accum_every (self s))%Z ->
  (is_main_process E = true ->
   save_results_every (self s) <> 0%Z /\ save_model_every (self s) <> 0%Z) ->
  (0 <= steps (self s) <= num_train_steps (self s))%Z ->
  (num_train_steps (self s) < 2 ^ 24)%Z ->
  Z.to_nat (num_train_steps (self s) - steps (self s)) <= fuel ->
  exists s',
    train E fuel s = Some (Ok tt, s') /\
    steps (self s') = num_train_steps (self s) /\
    train_step_calls (trace (world s')) =
      train_step_calls (trace (world s)) +
      Z.to_nat (num_train_steps (self s) - steps (self s)) /\
    checkpoints (trace (world s')) =
      checkpoints (trace (world s)) ++
      (if is_main_process E
       then (fun i => (results_folder (self s), model_name i)) <$>
            due_steps (save_model_every (self s)) (steps (self s))
              (Z.to_nat (num_train_steps (self s) - steps (self s)))
       else []) /\
    logged_steps "valid_loss" (trace (world s')) =
      logged_steps "valid_loss" (trace (world s)) ++
      (if is_main_process E
       then due_steps (save_results_every (self s)) (steps (self s))
              (Z.to_nat (num_train_steps (self s) - steps (self s)))
       else []) /\
    forall fuel',
      train E fuel' s' =
      Some (Ok tt, on_world (emit_w (EvPrint MsgTrainingComplete)) s').
Proof.
  intros Htrain Hvalid Hevery Hmain Hsteps Hsmall Hfuel.
  destruct (train_run E Htrain Hvalid
              (Z.to_nat (num_train_steps (self s) - steps (self s))) fuel s)
    as (s' & Hrun & Hend & Hcalls & Hsaved & Hlogged); try assumption; try lia.
  exists s'. repeat split; try assumption.
  intros fuel'. apply train_done.
  pose proof (train_keeps_bound _ _ _ _ Hrun) as Hnum.
  rewrite Hend, Hnum, f32_round_small by lia. apply Z.ltb_ge. lia.
Qed.

Lemma train_makes_remaining_steps_witness :
  exists s,
    sample_session (sample_args "fine" 7 2 3 4 0.05) = Some s /\
    (forall k, routable (train_batches unit_loss_env k)) /\
    (forall k, routable (valid_batches unit_loss_env k)) /\
    (1 <= grad_accum_every (self s))%Z /\
    (is_main_process unit_loss_env = true ->
     save_results_every (self s) <> 0%Z /\ save_model_every (self s) <> 0%Z) /\
    (0 <= steps (self s) <= num_train_steps (self s))%Z /\
    (num_train_steps (self s) < 2 ^ 24)%Z /\
    Z.to_nat (num_train_steps (self s) - steps (self s)) <= 7 /\
    exists s',
      train unit_loss_env 7 s = Some (Ok tt, s') /\
      steps (self s') = num_train_steps (self s) /\
      train_step_calls (trace (world s')) =
        train_step_calls (trace (world s)) +
        Z.to_nat (num_train_steps (self s) - steps (self s)) /\
      checkpoints (trace (world s')) =
        checkpoints (trace (world s)) ++
        (if is_main_process unit_loss_env
         then (fun i => (results_folder (self s), model_name i)) <$>
              due_steps (save_model_every (self s)) (steps (self s))
                (Z.to_nat (num_train_steps (self s) - steps (self s)))
         else []) /\
      logged_steps "valid_loss" (trace (world s')) =
        logged_steps "valid_loss" (trace (world s)) ++
        (if is_main_process unit_loss_env
         then due_steps (save_results_every (self s)) (steps (self s))
                (Z.to_nat (num_train_steps (self s) - steps (self s)))
         else []) /\
      forall fuel',
        train unit_loss_env fuel' s' =
        Some (Ok tt, on_world (emit_w (EvPrint MsgTrainingComplete)) s').
Proof.
  assert (Hroutable : forall k : nat, routable audio_batch)
    by (intros k; split; [simpl; lia | repeat constructor]).
  eexists. split; [vm_compute; reflexivity|].
  split; [exact Hroutable|]. split; [exact Hroutable|].
  split; [simpl; lia|]. split; [intros _; simpl; lia|].
  split; [simpl; lia|]. split; [simpl; lia|]. split; [simpl; lia|].
  apply (train_makes_remaining_steps unit_loss_env);
    [exact Hroutable | exact Hroutable | simpl; lia | intros _; simpl; lia
    | simpl; lia | simpl; lia | simpl; lia].
Defined.

(** X13.  There is no retry: when the first batch of a session has an element
    the table cannot classify, [train] stops at once with the type error,
    before any backward pass or optimizer step; the counter is not advanced,
    no mapping is cached and the callback is not called. *)
Theorem unroutable_batch_stops_training E s fuel :
  ds_fields (self s) = None ->
  (0 <= steps (self s) < num_train_steps (self s))%Z ->
  (num_train_steps (self s) < 2 ^ 24)%Z ->
  (1 <= grad_accum_every (self s))%Z ->
  Exists (fun el => input_audio_hint el = false) (train_batches E (dl_iter (self s))) ->
  exists s',
    train E (S fuel) s = Some (Raise TypeError, s') /\
    steps (self s') = steps (self s) /\
    ds_fields (self s') = None /\
    trace (world s') =
      trace (world s) ++ [EvTransformerTrain; EvNextTrain (dl_iter (self s))] /\
    optimizer_events (trace (world s')) = optimizer_events (trace (world s)) /\
    log_fn_calls (trace (world s')) = log_fn_calls (trace (world s)).
Proof.
  intros Hc Hsteps Hsmall Hevery Hbad.
  cbn [train]. rewrite f32_round_small by lia.
  destruct (Z.ltb_spec (steps (self s)) (num_train_steps (self s))) as [_|]; [|lia].
  rewrite train_step_unfold.
  destruct (Z.to_nat (grad_accum_every (self s))) as [|n] eqn:Hn; [lia|].
  cbn [accum_loop]. run_step. cbn [self on_world on_self dl_iter set_dl_iter].
  match goal with
  | |- context [data_tuple_to_kwargs ?d ?s0] =>
      destruct (determine_types_fixed d s0) as (r & m & Hrun & _ & Hraise);
      rewrite (Hraise Hbad) in Hrun;
      rewrite (data_tuple_to_kwargs_infer_raise d s0 _ _ Hc Hrun)
  end.
  eexists. split; [reflexivity|]. cbn.
  unfold optimizer_events, log_fn_calls.
  rewrite <- app_assoc, List.filter_app, omap_app. cbn.
  rewrite !app_nil_r. repeat split; assumption.
Qed.

Lemma unroutable_batch_stops_training_witness :
  exists s,
    session_in captioned_env (sample_args "semantic" 5 1 100 1000 0.05) = Some s /\
    ds_fields (self s) = None /\
    (0 <= steps (self s) < num_train_steps (self s))%Z /\
    (num_train_steps (self s) < 2 ^ 24)%Z /\
    (1 <= grad_accum_every (self s))%Z /\
    Exists (fun el => input_audio_hint el = false)
      (train_batches captioned_env (dl_iter (self s))) /\
    exists s',
      train captioned_env 3 s = Some (Raise TypeError, s') /\
      steps (self s') = steps (self s) /\
      ds_fields (self s') = None /\
      trace (world s') =
        trace (world s) ++ [EvTransformerTrain; EvNextTrain (dl_iter (self s))] /\
      optimizer_events (trace (world s')) = optimizer_events (trace (world s)) /\
      log_fn_calls (trace (world s')) = log_fn_calls (trace (world s)).
Proof.
  eexists. split; [vm_compute; reflexivity|]. split; [reflexivity|].
  split; [simpl; lia|]. split; [simpl; lia|]. split; [simpl; lia|].
  split; [apply Exists_cons_tl, Exists_cons_hd; reflexivity|].
  apply (unroutable_batch_stops_training captioned_env);
    [reflexivity | simpl; lia | simpl; lia | simpl; lia
    | apply Exists_cons_tl, Exists_cons_hd; reflexivity].
Defined.

(** ** More on the constructor *)

Lemma stage_in_literal stage :
  stage ∈ stage_literal <-> stage = "semantic" \/ stage = "coarse" \/ stage = "fine".
Proof.
  unfold stage_literal. rewrite !elem_of_cons, elem_of_nil. tauto.
Qed.

Lemma init_raises E a w e :
  Args.stage a ∈ stage_literal ->
  build_wrapper a (emit_w EvAccelerator w) = (Raise e, emit_w EvAccelerator w) ->
  SingleStageTrainer E a w = (Raise e, emit_w EvAccelerator w).
Proof.
  intros Hstage Hwrap. unfold SingleStageTrainer.
  rewrite bool_decide_eq_true_2 by exact Hstage.
  unfold __init__. rewrite (bind_Ok_run _ _ _ _ _ (emit0_run EvAccelerator w)).
  now apply bind_Raise_run.
Qed.

(** X14.  Each stage asserts the modules it needs, right after the execution
    harness is created and before anything else is done: the semantic stage
    an audio conditioner and a feature extractor, the coarse stage these two
    and a codec, the fine stage an audio conditioner and a codec. *)
Theorem missing_module_asserts E a w :
  (Args.stage a = "semantic" /\
   (Args.audio_conditioner a = None \/ Args.wav2vec a = None)) \/
  (Args.stage a = "coarse" /\
   (Args.wav2vec a = None \/ Args.audio_conditioner a = None \/
    Args.neural_codec a = None)) \/
  (Args.stage a = "fine" /\
   (Args.audio_conditioner a = None \/ Args.neural_codec a = None)) ->
  SingleStageTrainer E a w = (Raise AssertionError, emit_w EvAccelerator w).
Proof.
  intros H. apply init_raises.
  - apply stage_in_literal. tauto.
  - unfold build_wrapper.
    destruct H as [[-> H]|[[-> H]|[-> H]]]; cbn;
      destruct (Args.wav2vec a), (Args.audio_conditioner a), (Args.neural_codec a);
      try reflexivity; exfalso; intuition discriminate.
Qed.

Lemma missing_module_asserts_witness :
  ((Args.stage fine_codecless = "semantic" /\
    (Args.audio_conditioner fine_codecless = None \/ Args.wav2vec fine_codecless = None)) \/
   (Args.stage fine_codecless = "coarse" /\
    (Args.wav2vec fine_codecless = None \/ Args.audio_conditioner fine_codecless = None \/
     Args.neural_codec fine_codecless = None)) \/
   (Args.stage fine_codecless = "fine" /\
    (Args.audio_conditioner fine_codecless = None \/
     Args.neural_codec fine_codecless = None))) /\
  SingleStageTrainer unit_loss_env fine_codecless empty_world
    = (Raise AssertionError, emit_w EvAccelerator empty_world).
Proof.
  assert (H : Args.stage fine_codecless = "fine" /\
              (Args.audio_conditioner fine_codecless = None \/
               Args.neural_codec fine_codecless = None))
    by (split; [reflexivity | right; reflexivity]).
  split; [right; right; exact H|].
  apply (missing_module_asserts unit_loss_env fine_codecless empty_world).
  right; right; exact H.
Defined.

(** The wrapper a stage gets. *)
Lemma build_wrapper_ok a w wrapper w' :
  build_wrapper a w = (Ok wrapper, w') ->
  (Args.stage a = "semantic" /\
   exists wv clap,
     Args.wav2vec a = Some wv /\ Args.audio_conditioner a = Some clap /\
     wrapper = SemanticStage (Args.transformer a) wv clap) \/
  (Args.stage a = "coarse" /\
   exists wv clap codec,
     Args.wav2vec a = Some wv /\ Args.audio_conditioner a = Some clap /\
     Args.neural_codec a = Some codec /\
     wrapper = CoarseStage (Args.transformer a) codec wv clap clap) \/
  (Args.stage a = "fine" /\
   exists clap codec,
     Args.audio_conditioner a = Some clap /\ Args.neural_codec a = Some codec /\
     wrapper = FineStage (Args.transformer a) clap codec).
Proof.
  unfold build_wrapper.
  destruct (String.eqb_spec (Args.stage a) "semantic") as [Hs|_].
  { destruct (Args.audio_conditioner a) as [clap|], (Args.wav2vec a) as [wv|];
      try discriminate.
    intros [= <- _]. left. eauto 10. }
  destruct (String.eqb_spec (Args.stage a) "coarse") as [Hs|_].
  { destruct (Args.wav2vec a) as [wv|], (Args.audio_conditioner a) as [clap|],
      (Args.neural_codec a) as [codec|]; try discriminate.
    intros [= <- _]. right; left. eauto 10. }
  destruct (String.eqb_spec (Args.stage a) "fine") as [Hs|_]; [|discriminate].
  destruct (Args.audio_conditioner a) as [clap|], (Args.neural_codec a) as [codec|];
    try discriminate.
  intros [= <- _]. right; right. eauto 10.
Qed.

(** X15.  A trainer that was constructed holds the wrapper of the stage asked
    for, built over the transformer and the modules passed in (the coarse
    stage gets the conditioner twice); it starts at step 0 with no field
    mapping. *)
Theorem constructed_wrapper E a w t w' :
  SingleStageTrainer E a w = (Ok t, w') ->
  ((Args.stage a = "semantic" /\
    exists wv clap,
      Args.wav2vec a = Some wv /\ Args.audio_conditioner a = Some clap /\
      train_wrapper t = SemanticStage (Args.transformer a) wv clap) \/
   (Args.stage a = "coarse" /\
    exists wv clap codec,
      Args.wav2vec a = Some wv /\ Args.audio_conditioner a = Some clap /\
      Args.neural_codec a = Some codec /\
      train_wrapper t = CoarseStage (Args.transformer a) codec wv clap clap) \/
   (Args.stage a = "fine" /\
    exists clap codec,
      Args.audio_conditioner a = Some clap /\ Args.neural_codec a = Some codec /\
      train_wrapper t = FineStage (Args.transformer a) clap codec)) /\
  stage_of (train_wrapper t) = Args.stage a /\
  steps t = 0%Z /\ ds_fields t = None.
Proof.
  unfold SingleStageTrainer. destruct (bool_decide _); [|discriminate].
  intros H.
  apply init_inv in H as (wrapper & dataset & w2 & parts & w3 & Hw & _ & _ & ->).
  cbn. apply build_wrapper_ok in Hw.
  split; [exact Hw|]. split; [|split; reflexivity].
  destruct Hw as [(-> & ? & ? & _ & _ & ->)|[(-> & ? & ? & ? & _ & _ & _ & ->)
                 |(-> & ? & ? & _ & _ & ->)]]; reflexivity.
Qed.

Lemma constructed_wrapper_witness :
  exists t w',
    SingleStageTrainer unit_loss_env (sample_args "coarse" 5 1 2 2 0.05) empty_world
      = (Ok t, w') /\
    stage_of (train_wrapper t) = "coarse".
Proof.
  eexists _, _. split; [vm_compute; reflexivity|].
  refine (proj1 (proj2 (constructed_wrapper unit_loss_env
                          (sample_args "coarse" 5 1 2 2 0.05) empty_world _ _ _))).
  vm_compute; reflexivity.
Defined.

(** X16.  The fine stage does not ask for a feature extractor, but a dataset
    built from a folder reads the sample rate off it: without a dataset and
    without a feature extractor the construction stops with an
    [AttributeError], after the wrapper and the optimizer were built. *)
Theorem fine_folder_needs_extractor E a w clap codec folder :
  Args.stage a = "fine" ->
  Args.audio_conditioner a = Some clap ->
  Args.neural_codec a = Some codec ->
  Args.wav2vec a = None ->
  Args.dataset a = None ->
  Args.folder a = Some folder ->
  exists w',
    SingleStageTrainer E a w = (Raise AttributeError, w') /\
    trace w' = trace w ++ [EvAccelerator;
                           EvStageWrapper (FineStage (Args.transformer a) clap codec);
                           EvGetOptimizer (Args.lr a) (Args.wd a)].
Proof.
  intros Hs Hc Hn Hw Hd Hf.
  unfold SingleStageTrainer, __init__, build_wrapper, create_dataset.
  rewrite Hs, Hc, Hn, Hw, Hd, Hf. cbn.
  eexists. split; [reflexivity|]. cbn. now rewrite <- !app_assoc.
Qed.

Lemma fine_folder_needs_extractor_witness :
  exists w',
    SingleStageTrainer unit_loss_env fine_folder_args empty_world
      = (Raise AttributeError, w') /\
    trace w' = trace empty_world
               ++ [EvAccelerator;
                   EvStageWrapper (FineStage (Args.transformer fine_folder_args)
                                     (Clap 0) (Codec 0));
                   EvGetOptimizer (Args.lr fine_folder_args) (Args.wd fine_folder_args)].
Proof.
  apply (fine_folder_needs_extractor unit_loss_env fine_folder_args empty_world
           (Clap 0) (Codec 0) "./data"); reflexivity.
Defined.

(** X17.  With every module at hand but neither a dataset nor a folder, the
    construction stops with an [AssertionError]; the wrapper of the stage and
    the optimizer were built by then, and no dataset was. *)
Theorem no_dataset_no_folder E a w wv clap codec :
  Args.stage a ∈ stage_literal ->
  Args.wav2vec a = Some wv ->
  Args.audio_conditioner a = Some clap ->
  Args.neural_codec a = Some codec ->
  Args.dataset a = None ->
  Args.folder a = None ->
  exists wrapper w',
    SingleStageTrainer E a w = (Raise AssertionError, w') /\
    stage_of wrapper = Args.stage a /\
    trace w' = trace w ++ [EvAccelerator; EvStageWrapper wrapper;
                           EvGetOptimizer (Args.lr a) (Args.wd a)].
Proof.
  intros Hs Hw Hc Hn Hd Hf.
  unfold SingleStageTrainer. rewrite bool_decide_eq_true_2 by exact Hs.
  apply stage_in_literal in Hs.
  unfold __init__, build_wrapper, create_dataset.
  rewrite Hw, Hc, Hn, Hd, Hf.
  destruct Hs as [Hs|[Hs|Hs]]; rewrite Hs; cbn;
    eexists _, _; (split; [reflexivity|]);
    (split; [|cbn; rewrite <- !app_assoc; reflexivity]); reflexivity.
Qed.

Lemma no_dataset_no_folder_witness :
  exists wrapper w',
    SingleStageTrainer unit_loss_env no_data_args empty_world
      = (Raise AssertionError, w') /\
    stage_of wrapper = Args.stage no_data_args /\
    trace w' = trace empty_world
               ++ [EvAccelerator; EvStageWrapper wrapper;
                   EvGetOptimizer (Args.lr no_data_args) (Args.wd no_data_args)].
Proof.
  apply (no_dataset_no_folder unit_loss_env no_data_args empty_world
           {| target_sample_hz := 16000; seq_len_multiple_of := None |}
           (Clap 0) (Codec 0));
    try reflexivity.
  apply stage_in_literal. right; left; reflexivity.
Defined.

(** ** The effects of a construction, in order *)

Lemma folder_events_app evs evs' :
  folder_events (evs ++ evs') = folder_events evs ++ folder_events evs'.
Proof. apply List.filter_app. Qed.

Lemma create_dataset_trace E a w r w' :
  create_dataset E a w = (r, w') ->
  trace w' = trace w ++ match r with Ok _ => dataset_effects a | Raise _ => [] end.
Proof.
  unfold create_dataset, dataset_effects.
  destruct (Args.dataset a) as [d|].
  { intros [= <- <-]. now rewrite app_nil_r. }
  destruct (Args.folder a) as [folder|].
  2: { intros [= <- <-]. now rewrite app_nil_r. }
  destruct (Args.wav2vec a) as [wv|].
  2: { intros [= <- <-]. now rewrite app_nil_r. }
  intros [= <- <-]. reflexivity.
Qed.

Lemma random_split_run E d train_size valid_size seed w :
  (train_size + valid_size)%Z = Z.of_nat (ds_len d) ->
  random_split E d train_size valid_size seed w
  = (Ok (Subset (next_oid w) d
           (random_split_indices E seed (ds_len d) train_size valid_size).1,
         Subset (S (next_oid w)) d
           (random_split_indices E seed (ds_len d) train_size valid_size).2),
     alloc_w (alloc_w (emit_w (EvRandomSplit (oid_of d) train_size valid_size seed) w))).
Proof.
  intros H. unfold random_split. run.
  rewrite bool_decide_eq_true_2 by exact H. reflexivity.
Qed.

Lemma split_for_validation_trace E a d w r w' :
  split_for_validation E a d w = (r, w') ->
  match r with
  | Ok parts => trace w' = trace w ++ split_effects a d parts
  | Raise _ => w' = w
  end.
Proof.
  unfold split_for_validation, split_effects.
  destruct (0 <? Args.valid_frac a)%float.
  - destruct (int_of_float _) as [train_size|e] eqn:Hint.
    + unfold lift. run. rewrite random_split_run by lia. run.
      intros [= <- <-]. cbn. now rewrite <- app_assoc.
    + unfold lift. run. now intros [= <- <-].
  - run. now intros [= <- <-].
Qed.

Lemma prepare_results_folder_run E a w :
  exists w',
    prepare_results_folder E a w = (Ok tt, w') /\
    trace w' = trace w ++ folder_effects E a.
Proof.
  unfold prepare_results_folder, folder_effects, yes_or_no. run.
  destruct (glob_nonempty E (Args.results_folder a)).
  - destruct (bool_decide _); eexists; (split; [reflexivity|]);
      cbn; now rewrite <- !app_assoc.
  - eexists. split; [reflexivity|]. cbn. now rewrite <- !app_assoc.
Qed.

(** The trace a successful construction leaves. *)
Lemma init_trace E a w t w' :
  SingleStageTrainer E a w = (Ok t, w') ->
  exists dataset,
    (forall d, Args.dataset a = Some d -> dataset = d) /\
    trace w' = trace w
      ++ [EvAccelerator; EvStageWrapper (train_wrapper t);
          EvGetOptimizer (Args.lr a) (Args.wd a)]
      ++ dataset_effects a
      ++ split_effects a dataset (ds t, valid_ds t)
      ++ [EvGetDataloader (oid_of (ds t)) (Args.batch_size a);
          EvGetDataloader (oid_of (valid_ds t)) (Args.batch_size a);
          EvPrepare]
      ++ folder_effects E a
      ++ [EvInitTrackers "semantic"].
Proof.
  unfold SingleStageTrainer. destruct (bool_decide _); [|discriminate].
  unfold __init__. intros H.
  apply bind_Ok_inv in H as ([] & w0 & [= <-] & H).
  apply bind_Ok_inv in H as (wrapper & w1 & Hwrap & H).
  pose proof (build_wrapper_world _ _ _ _ Hwrap) as ->.
  apply bind_Ok_inv in H as ([] & ? & [= <-] & H).
  apply bind_Ok_inv in H as ([] & ? & [= <-] & H).
  apply bind_Ok_inv in H as (dataset & w2 & Hds & H).
  apply bind_Ok_inv in H as (parts & w3 & Hsplit & H).
  apply bind_Ok_inv in H as ([] & ? & [= <-] & H).
  apply bind_Ok_inv in H as ([] & ? & [= <-] & H).
  apply bind_Ok_inv in H as ([] & ? & [= <-] & H).
  apply bind_Ok_inv in H as ([] & w4 & Hprep & H).
  apply bind_Ok_inv in H as ([] & ? & [= <-] & H).
  injection H as <- <-.
  exists dataset. split.
  { intros d Hd. unfold create_dataset in Hds. rewrite Hd in Hds. now injection Hds. }
  destruct (prepare_results_folder_run E a
              (emit_w EvPrepare
                 (emit_w (EvGetDataloader (oid_of parts.2) (Args.batch_size a))
                    (emit_w (EvGetDataloader (oid_of parts.1) (Args.batch_size a)) w3))))
    as (w4' & Hrun & Htr).
  rewrite Hrun in Hprep. injection Hprep as <-.
  apply create_dataset_trace in Hds. apply split_for_validation_trace in Hsplit.
  cbn [trace emit_w train_wrapper ds valid_ds]. rewrite Htr. cbn [trace emit_w].
  rewrite Hsplit, Hds. cbn [trace emit_w].
  destruct parts as [p1 p2]. cbn [fst snd].
  rewrite <- !app_assoc. reflexivity.
Qed.

(** A construction that fails leaves a trace without a folder event. *)
Lemma init_failure_trace E a w e w' :
  __init__ E a w = (Raise e, w') ->
  exists evs, trace w' = trace w ++ evs /\ folder_events evs = [].
Proof.
  unfold __init__. intros H.
  apply bind_inv in H as [([] & w0 & [= <-] & H)|(? & [=] & _)].
  apply bind_inv in H as [(wrapper & w1 & Hwrap & H)|(? & Hwrap & _)].
  2: { apply build_wrapper_world in Hwrap as ->. now exists [EvAccelerator]. }
  pose proof (build_wrapper_world _ _ _ _ Hwrap) as ->.
  apply bind_inv in H as [([] & ? & [= <-] & H)|(? & [=] & _)].
  apply bind_inv in H as [([] & ? & [= <-] & H)|(? & [=] & _)].
  apply bind_inv in H as [(dataset & w2 & Hds & H)|(? & Hds & _)].
  2: { apply create_dataset_trace in Hds. rewrite app_nil_r in Hds.
       rewrite Hds. cbn. eexists. rewrite <- !app_assoc. split; reflexivity. }
  apply create_dataset_trace in Hds.
  apply bind_inv in H as [(parts & w3 & Hsplit & H)|(? & Hsplit & _)].
  2: { apply split_for_validation_trace in Hsplit as ->.
       rewrite Hds. cbn. eexists. rewrite <- !app_assoc. split; [reflexivity|].
       unfold dataset_effects.
       destruct (Args.dataset a), (Args.folder a); reflexivity. }
  apply bind_inv in H as [([] & ? & [= <-] & H)|(? & [=] & _)].
  apply bind_inv in H as [([] & ? & [= <-] & H)|(? & [=] & _)].
  apply bind_inv in H as [([] & ? & [= <-] & H)|(? & [=] & _)].
  apply bind_inv in H as [([] & w4 & Hprep & H)|(? & Hprep & _)].
  2: { exfalso.
       match type of Hprep with prepare_results_folder _ _ ?w0 = _ =>
         destruct (prepare_results_folder_run E a w0) as (? & Hrun & _) end.
       rewrite Hrun in Hprep. discriminate. }
  apply bind_inv in H as [([] & ? & [= <-] & H)|(? & [=] & _)].
  discriminate.
Qed.



(** An event on the folder, in a list that starts with events of other
    kinds, lies behind them. *)
Lemma folder_event_behind (prefix others before after : list event) e :
  prefix ++ others = before ++ e :: after ->
  folder_events prefix = [] ->
  folder_event e = true ->
  exists middle, before = prefix ++ middle.
Proof.
  revert before. induction prefix as [|x prefix IH]; intros before Heq Hnone He.
  { now exists before. }
  unfold folder_events in Hnone. cbn in Hnone.
  destruct (folder_event x) eqn:Hx; [discriminate|].
  destruct before as [|y before]; cbn in Heq.
  - injection Heq as -> _. congruence.
  - injection Heq as -> Heq.
    destruct (IH before Heq Hnone He) as (middle & ->). now exists middle.
Qed.

Lemma folder_events_nil_all evs e :
  folder_events evs = [] -> In e evs -> folder_event e = false.
Proof.
  intros Hnone Hin. destruct (folder_event e) eqn:He; [|reflexivity].
  assert (Hf : In e (folder_events evs)) by (apply List.filter_In; auto).
  rewrite Hnone in Hf. destruct Hf.
Qed.

(** X19.  The results folder is touched only after the data is in place: in
    every run of the constructor, whatever its outcome, each thing done to
    the folder (listing it, asking the operator, removing it, creating it)
    comes after the two data loaders were built and prepared.  So a
    construction that stops before that point, at the check of the
    arguments, at an assertion, at the creation of the dataset or at the
    split, has left the folder alone. *)
Theorem folder_touched_after_prepare E a w r w' before e after :
  SingleStageTrainer E a w = (r, w') ->
  drop (length (trace w)) (trace w') = before ++ e :: after ->
  folder_event e = true ->
  exists early train_ds valid_ds late,
    before = early
             ++ [EvGetDataloader train_ds (Args.batch_size a);
                 EvGetDataloader valid_ds (Args.batch_size a);
                 EvPrepare]
             ++ late.
Proof.
  intros Hrun Hsplit He. destruct r as [t|exn].
  - apply init_trace in Hrun as (dataset & _ & Htr).
    rewrite Htr, drop_app_length in Hsplit.
    set (early := [EvAccelerator; EvStageWrapper (train_wrapper t);
                   EvGetOptimizer (Args.lr a) (Args.wd a)]
                  ++ dataset_effects a
                  ++ split_effects a dataset (ds t, valid_ds t)).
    set (loaders := [EvGetDataloader (oid_of (ds t)) (Args.batch_size a);
                     EvGetDataloader (oid_of (valid_ds t)) (Args.batch_size a);
                     EvPrepare]).
    assert (Heq : (early ++ loaders)
                  ++ (folder_effects E a ++ [EvInitTrackers "semantic"])
                  = before ++ e :: after).
    { rewrite <- Hsplit. subst early loaders. rewrite <- !app_assoc. reflexivity. }
    assert (Hnone : folder_events (early ++ loaders) = []).
    { subst early loaders. rewrite !folder_events_app.
      assert (folder_events (dataset_effects a) = []) as ->
        by (unfold dataset_effects; destruct (Args.dataset a), (Args.folder a);
            reflexivity).
      assert (folder_events (split_effects a dataset (ds t, valid_ds t)) = []) as ->
        by (unfold split_effects; destruct (0 <? _)%float; [destruct (int_of_float _)|];
            reflexivity).
      reflexivity. }
    destruct (folder_event_behind _ _ _ _ _ Heq Hnone He) as (middle & ->).
    exists early, (oid_of (ds t)), (oid_of (valid_ds t)), middle.
    subst loaders. now rewrite <- app_assoc.
  - exfalso. unfold SingleStageTrainer in Hrun. destruct (bool_decide _).
    + apply init_failure_trace in Hrun as (evs & Htr & Hevs).
      rewrite Htr, drop_app_length in Hsplit.
      assert (Hin : In e evs) by (rewrite Hsplit; apply in_elt).
      rewrite (folder_events_nil_all _ _ Hevs Hin) in He. discriminate.
    + injection Hrun as _ <-. rewrite drop_all in Hsplit.
      now destruct before.
Qed.

Lemma folder_touched_after_prepare_witness :
  exists early train_ds valid_ds late,
    take 10 (trace (SingleStageTrainer shouting_env (sample_args "fine" 5 1 2 2 0.05)
                      empty_world).2)
    = early
      ++ [EvGetDataloader train_ds (Args.batch_size (sample_args "fine" 5 1 2 2 0.05));
          EvGetDataloader valid_ds (Args.batch_size (sample_args "fine" 5 1 2 2 0.05));
          EvPrepare]
      ++ late.
Proof.
  apply (folder_touched_after_prepare shouting_env (sample_args "fine" 5 1 2 2 0.05)
           empty_world
           (SingleStageTrainer shouting_env (sample_args "fine" 5 1 2 2 0.05) empty_world).1
           (SingleStageTrainer shouting_env (sample_args "fine" 5 1 2 2 0.05) empty_world).2
           _ (EvRmtree "./results")
           (drop 11 (trace (SingleStageTrainer shouting_env
                              (sample_args "fine" 5 1 2 2 0.05) empty_world).2)));
    vm_compute; reflexivity.
Defined.

(** X20.  The results folder is removed exactly when it holds something and
    the operator's answer is "yes" or "y" in any letter case; the operator is
    asked exactly when the folder holds something; the folder is created
    last, in every case. *)
Theorem folder_cleared_only_on_yes E a w t w' :
  SingleStageTrainer E a w = (Ok t, w') ->
  (EvRmtree (Args.results_folder a) ∈ folder_events (drop (length (trace w)) (trace w'))
   <-> glob_nonempty E (Args.results_folder a) = true /\
       lower (operator_answer E) ∈ ["yes"; "y"]) /\
  (EvInput ∈ folder_events (drop (length (trace w)) (trace w'))
   <-> glob_nonempty E (Args.results_folder a) = true) /\
  last (folder_events (drop (length (trace w)) (trace w')))
    = Some (EvMkdir (Args.results_folder a)).
Proof.
  intros H. apply init_trace in H as (dataset & _ & ->).
  rewrite drop_app_length.
  assert (Hf : folder_events
                 ([EvAccelerator; EvStageWrapper (train_wrapper t);
                   EvGetOptimizer (Args.lr a) (Args.wd a)]
                  ++ dataset_effects a
                  ++ split_effects a dataset (ds t, valid_ds t)
                  ++ [EvGetDataloader (oid_of (ds t)) (Args.batch_size a);
                      EvGetDataloader (oid_of (valid_ds t)) (Args.batch_size a);
                      EvPrepare]
                  ++ folder_effects E a
                  ++ [EvInitTrackers "semantic"])
               = folder_effects E a).
  { rewrite !folder_events_app.
    assert (folder_events (dataset_effects a) = []) as ->
      by (unfold dataset_effects; destruct (Args.dataset a), (Args.folder a); reflexivity).
    assert (folder_events (split_effects a dataset (ds t, valid_ds t)) = []) as ->
      by (unfold split_effects; destruct (0 <? _)%float; [destruct (int_of_float _)|];
          reflexivity).
    cbn. rewrite app_nil_r.
    unfold folder_effects. destruct (glob_nonempty E _); [destruct (bool_decide _)|];
      reflexivity. }
  rewrite Hf. unfold folder_effects.
  destruct (glob_nonempty E (Args.results_folder a)).
  - destruct (bool_decide_reflect (lower (operator_answer E) ∈ ["yes"; "y"])) as [Hy|Hn];
      cbn; (split; [|split; [|reflexivity]]).
    + split; [auto|]. intros _. repeat constructor.
    + split; [auto|]. intros _. repeat constructor.
    + split; [|tauto]. intros Hin. exfalso. decompose_elem_of Hin.
    + split; [auto|]. intros _. repeat constructor.
  - cbn. split; [|split; [|reflexivity]].
    + split; [|intros [[=] _]]. intros Hin. exfalso. decompose_elem_of Hin.
    + split; [|intros [=]]. intros Hin. exfalso. decompose_elem_of Hin.
Qed.

Lemma folder_cleared_only_on_yes_witness :
  exists t w',
    SingleStageTrainer shouting_env (sample_args "fine" 5 1 2 2 0.05) empty_world
      = (Ok t, w') /\
    EvRmtree "./results"
      ∈ folder_events (drop (length (trace empty_world)) (trace w')).
Proof.
  eexists _, _. split; [vm_compute; reflexivity|].
  refine (proj2 (proj1 (folder_cleared_only_on_yes shouting_env
                          (sample_args "fine" 5 1 2 2 0.05) empty_world _ _ _)) _).
  - vm_compute; reflexivity.
  - split; [reflexivity|]. vm_compute. repeat constructor.
Defined.

(** ** The cycling iterator *)

Lemma passes_length {A} (dl : nat -> list A) from n :
  (forall k, dl k <> []) ->
  n <= length (concat (map dl (seq from n))).
Proof.
  intros Hne. revert from. induction n as [|n IH]; intros from; [cbn; lia|].
  cbn. rewrite length_app. specialize (IH (S from)).
  specialize (Hne from). destruct (dl from); [congruence|]. cbn. lia.
Qed.

Lemma take_app_enough {A} (l extra : list A) n :
  n <= length l -> take n (l ++ extra) = take n l.
Proof. intros H. now rewrite take_app_le. Qed.

(** What [n] calls of [next] yield, from any state. *)
Lemma cycle_take_from {A} (dl : nat -> list A) n st :
  (forall k, dl k <> []) ->
  exists st',
    cycle_take 1 dl n st
    = Some (take n (rest st ++ concat (map dl (seq (passes st) n))), st').
Proof.
  intros Hne. revert st. induction n as [|n IH]; intros [p r].
  { eexists. reflexivity. }
  cbn [cycle_take cycle_next rest passes]. destruct r as [|x r].
  - destruct (dl p) as [|x r] eqn:Hp; [now apply Hne in Hp|].
    destruct (IH {| passes := S p; rest := r |}) as (st' & ->).
    exists st'. cbn [rest passes seq map concat app]. rewrite Hp. reflexivity.
  - destruct (IH {| passes := p; rest := r |}) as (st' & ->).
    exists st'. cbn [rest passes]. do 2 f_equal.
    change (take (S n) ((x :: r) ++ ?l)) with (x :: take n (r ++ l)). f_equal.
    replace (seq p (S n)) with (seq p n ++ [p + n]) by (now rewrite seq_S).
    rewrite map_app, concat_app, app_assoc.
    symmetry. apply take_app_enough. rewrite length_app.
    pose proof (passes_length dl p n Hne). lia.
Qed.

(** X21.  Over a loader none of whose passes is empty, the cycling iterator
    never stops and never skips: its first [n] items are the first [n] items
    of the passes laid end to end, each pass in its own order. *)
Theorem cycle_yields_passes_in_order {A} (dl : nat -> list A) n :
  (forall k, dl k <> []) ->
  exists st',
    cycle_take 1 dl n cycle = Some (take n (concat (map dl (seq 0 n))), st').
Proof. intros Hne. apply (cycle_take_from dl n cycle Hne). Qed.

Lemma cycle_yields_passes_in_order_witness :
  exists st',
    cycle_take 1 (fun k => [k; 10 + k]) 5 cycle
    = Some (take 5 (concat (map (fun k => [k; 10 + k]) (seq 0 5))), st').
Proof.
  apply (cycle_yields_passes_in_order (fun k => [k; 10 + k]) 5).
  intros k. discriminate.
Defined.

Lemma concat_replicate_lookup {A} (l : list A) n k :
  k < n * length l ->
  concat (replicate n l) !! k = l !! (k mod length l).
Proof.
  revert k. induction n as [|n IH]; intros k Hk; [lia|].
  assert (Hlen : length l <> 0) by (intros H0; rewrite H0 in Hk; lia).
  cbn [replicate concat].
  destruct (decide (k < length l)) as [Hlt|Hge].
  - rewrite lookup_app_l by exact Hlt. now rewrite Nat.mod_small.
  - rewrite lookup_app_r by lia. rewrite IH by lia. f_equal.
    replace k with ((k - length l) + 1 * length l) at 2 by lia.
    now rewrite Nat.Div0.mod_add.
Qed.

Lemma map_const_seq {A} (l : A) from n :
  map (fun _ : nat => l) (seq from n) = replicate n l.
Proof.
  revert from. induction n as [|n IH]; intros from; [reflexivity|].
  cbn. now rewrite IH.
Qed.

(** X22.  Over a loader that yields the same non-empty list at every pass,
    the [k]-th item of the cycling iterator, counting from 0, is the item at
    position [k mod len] of the list. *)
Theorem cycle_wraps_around {A} (l : list A) n k :
  l <> [] -> k < n ->
  exists items st',
    cycle_take 1 (fun _ => l) n cycle = Some (items, st') /\
    items !! k = l !! (k mod length l).
Proof.
  intros Hl Hk.
  destruct (cycle_take_from (fun _ => l) n cycle (fun _ => Hl)) as (st' & Heq).
  eexists _, st'. split; [exact Heq|].
  cbn [rest passes cycle app]. rewrite map_const_seq.
  rewrite lookup_take_lt by exact Hk.
  apply concat_replicate_lookup.
  destruct l; [congruence|]. cbn. nia.
Qed.

Lemma cycle_wraps_around_witness :
  exists items st',
    cycle_take 1 (fun _ => ["a"; "b"; "c"]) 8 cycle = Some (items, st') /\
    items !! 7 = ["a"; "b"; "c"] !! (7 mod length ["a"; "b"; "c"]).
Proof.
  apply (cycle_wraps_around ["a"; "b"; "c"] 8 7); [discriminate|lia].
Defined.

(** X23.  Over a loader whose passes are all empty, [next] never returns:
    however many passes are started, none yields an item (no exception ends
    the search either). *)
Theorem cycle_empty_never_yields {A} (dl : nat -> list A) fuel st :
  (forall k, dl k = []) -> rest st = [] ->
  cycle_next fuel dl st = None.
Proof.
  intros Hdl. revert st. induction fuel as [|fuel IH]; intros [p r] Hr;
    cbn in Hr; subst r; [reflexivity|].
  cbn [cycle_next rest passes]. apply IH. cbn. apply Hdl.
Qed.

Lemma cycle_empty_never_yields_witness :
  cycle_next 1000 (fun _ => @nil nat) cycle = None.
Proof.
  apply (cycle_empty_never_yields (fun _ => @nil nat) 1000 cycle); reflexivity.
Defined.

(** ** Checkpoints *)

Lemma save_run path s :
  save path s
  = (Ok tt,
     {| transformer_state := transformer_state s;
        optim_state := optim_state s;
        disk := <[path :=
                    <["optim" := ObjStateDict (optim_state s)]>
                      (<["model" := ObjStateDict (transformer_state s)]> ∅)]> (disk s) |}).
Proof. reflexivity. Qed.

Lemma load_found L path pkg s :
  disk s !! path = Some pkg ->
  load L path s
  = (model ← pkg_getitem pkg "model";
     transformer_load_state_dict L model;;
     optim ← pkg_getitem pkg "optim";
     optim_load_state_dict L optim) s.
Proof. intros H. unfold load. run. now rewrite H. Qed.

(** X24.  [load] of a path that does not exist stops at the assertion:
    nothing was read and neither the transformer nor the optimizer was
    touched. *)
Theorem load_missing_path L path s :
  disk s !! path = None ->
  load L path s = (Raise AssertionError, s).
Proof. intros H. unfold load. run. now rewrite H. Qed.

Lemma load_missing_path_witness :
  load strict_library "results/semantic.transformer.0.pt" sample_store
  = (Raise AssertionError, sample_store).
Proof.
  apply (load_missing_path strict_library "results/semantic.transformer.0.pt"
           sample_store).
  reflexivity.
Defined.

(** X25.  What [save] wrote, [load] brings back: whatever became of the
    transformer and of the optimizer in between, if the file is still the one
    [save] wrote and the library takes the two state dicts, then after [load]
    the transformer holds the state it had at [save], the optimizer holds the
    state it had at [save], and the disk is as it was. *)
Theorem save_then_load_restores L path s s1 later :
  save path s = (Ok tt, s1) ->
  disk later !! path = disk s1 !! path ->
  load_module_state L (transformer_state later) (ObjStateDict (transformer_state s))
    = (Ok tt, transformer_state s) ->
  load_optim_state L (optim_state later) (ObjStateDict (optim_state s))
    = (Ok tt, optim_state s) ->
  load L path later
  = (Ok tt, {| transformer_state := transformer_state s;
               optim_state := optim_state s;
               disk := disk later |}).
Proof.
  rewrite save_run. intros [= <-] Hfile Hm Ho. cbn in Hfile.
  rewrite lookup_insert_eq in Hfile.
  rewrite (load_found L path _ later Hfile).
  unfold pkg_getitem.
  rewrite (lookup_insert_ne _ "optim" "model") by (intros [=]).
  rewrite !lookup_insert_eq.
  unfold transformer_load_state_dict, optim_load_state_dict. run.
  rewrite Hm. cbn. rewrite Ho. reflexivity.
Qed.

Lemma save_then_load_restores_witness :
  exists s1,
    save "ckpt.pt" sample_store = (Ok tt, s1) /\
    load strict_library "ckpt.pt" (trained_on s1)
    = (Ok tt, {| transformer_state := transformer_state sample_store;
                 optim_state := optim_state sample_store;
                 disk := disk (trained_on s1) |}).
Proof.
  eexists. split; [vm_compute; reflexivity|].
  eapply (save_then_load_restores strict_library "ckpt.pt" sample_store);
    vm_compute; reflexivity.
Defined.

(** X26.  The periodic snapshot of [train_step] is not a file [load] reads:
    it holds the bare state dict, so unless the transformer has an entry
    named "model" itself, [load] stops with [KeyError] at [pkg['model']] and
    nothing is loaded. *)
Theorem snapshot_not_loadable L model_path s s1 :
  transformer_state s !! "model" = None ->
  save_snapshot model_path s = (Ok tt, s1) ->
  load L model_path s1 = (Raise (KeyError "model"), s1).
Proof.
  intros Hno [= <-].
  erewrite load_found by (cbn; apply lookup_insert_eq).
  unfold pkg_getitem. rewrite !lookup_fmap.
  unfold state_dict in *. rewrite Hno. reflexivity.
Qed.

Lemma snapshot_not_loadable_witness :
  exists s1,
    save_snapshot "results/semantic.transformer.0.pt" sample_store = (Ok tt, s1) /\
    load strict_library "results/semantic.transformer.0.pt" s1
    = (Raise (KeyError "model"), s1).
Proof.
  eexists. split; [vm_compute; reflexivity|].
  apply (snapshot_not_loadable strict_library "results/semantic.transformer.0.pt"
           sample_store); vm_compute; reflexivity.
Defined.

(** X27.  [load] is not all-or-nothing: from a file with a "model" entry the
    library takes and no "optim" entry, the transformer is loaded and then
    the call stops with [KeyError]; the optimizer keeps its state. *)
Theorem load_not_atomic L path pkg model loaded s :
  disk s !! path = Some pkg ->
  pkg !! "model" = Some model ->
  pkg !! "optim" = None ->
  load_module_state L (transformer_state s) model = (Ok tt, loaded) ->
  load L path s
  = (Raise (KeyError "optim"),
     {| transformer_state := loaded; optim_state := optim_state s; disk := disk s |}).
Proof.
  intros Hfile Hm Ho Hload.
  rewrite (load_found L path pkg s Hfile).
  unfold pkg_getitem. rewrite Hm, Ho.
  unfold transformer_load_state_dict. run. rewrite Hload. reflexivity.
Qed.

Lemma load_not_atomic_witness :
  load strict_library "weights.pt" weights_only_store
  = (Raise (KeyError "optim"),
     {| transformer_state := other_weights;
        optim_state := optim_state weights_only_store;
        disk := disk weights_only_store |}).
Proof.
  apply (load_not_atomic strict_library "weights.pt"
           {["model" := ObjStateDict other_weights]}
           (ObjStateDict other_weights) other_weights weights_only_store);
    vm_compute; reflexivity.
Defined.
